(** * go-smtpsrv: the MIME decoding core of the mail parser

    A shallow embedding of the parser of package [smtpsrv]: the header
    field parser, the RFC 2047 header decoder with its KOI8-R fast path,
    the transfer-encoding and charset decoders and the three multipart
    walkers, followed by the properties proved about them.

    Go strings and byte slices are both sequences of bytes; they are
    modelled by [string] (a list of 8-bit characters).  A Go function that
    can raise a run-time panic returns in [exec]; a Go [error] result is an
    [option error] next to the other results, as in the source. *)

From Stdlib Require Import ZArith Lia Bool Ascii String List.
From stdpp Require Import base option list strings gmap pretty.

Open Scope string_scope.
Open Scope list_scope.

(** ** Run-time panics *)

Inductive exec (A : Type) : Type :=
| Ret (a : A)
| Panic (msg : string).
Arguments Ret {A} a.
Arguments Panic {A} msg.

#[global] Instance exec_ret : MRet exec := fun _ a => Ret a.
#[global] Instance exec_bind : MBind exec := fun _ _ k m =>
  match m with
  | Ret a => k a
  | Panic msg => Panic msg
  end.

#[global] Instance exec_fmap : FMap exec := fun _ _ f m =>
  match m with
  | Ret a => Ret (f a)
  | Panic msg => Panic msg
  end.

Definition returns {A : Type} (m : exec A) : Prop := exists a, m = Ret a.

Fixpoint exec_mapM {A B : Type} (f : A -> exec B) (l : list A) : exec (list B) :=
  match l with
  | [] => Ret []
  | a :: l' => b ← f a; bs ← exec_mapM f l'; Ret (b :: bs)
  end.

(** ** The part of Go's [strings] package the parser uses

    The functions work on bytes, as Go's do for the ASCII separators and
    cut sets the parser passes.  [ToLowerASCII] is the path [strings.ToLower]
    takes on a string that is all ASCII; [ToLower] itself is defined with
    the parser, next to the library.  [TrimSpace] removes the ASCII blanks;
    Go's also removes the blanks of Unicode that lie outside ASCII. *)

Module strings.

Definition byte_in (lo hi : N) (c : ascii) : bool :=
  (lo <=? N_of_ascii c)%N && (N_of_ascii c <=? hi)%N.

Definition lower_byte (c : ascii) : ascii :=
  if byte_in 65 90 c then ascii_of_N (N_of_ascii c + 32) else c.

Fixpoint isASCII (s : string) : bool :=
  match s with
  | EmptyString => true
  | String c s' => (N_of_ascii c <? 128)%N && isASCII s'
  end.

Fixpoint ToLowerASCII (s : string) : string :=
  match s with
  | EmptyString => EmptyString
  | String c s' => String (lower_byte c) (ToLowerASCII s')
  end.

Fixpoint HasPrefix (s p : string) {struct p} : bool :=
  match p, s with
  | EmptyString, _ => true
  | String _ _, EmptyString => false
  | String b p', String a s' => if Ascii.eqb a b then HasPrefix s' p' else false
  end.

Fixpoint Contains (s sub : string) : bool :=
  HasPrefix s sub ||
  match s with
  | EmptyString => false
  | String _ s' => Contains s' sub
  end.

(** [Split s sep] for a non-empty [sep], which is what every call site
    passes.  [split_from] scans from the left: [cur] is the piece read so
    far and [skip] counts the bytes of a separator that has just matched
    and are still to be passed over. *)
Fixpoint split_from (sep : string) (skip : nat) (cur s : string) : list string :=
  match s with
  | EmptyString => [cur]
  | String c s' =>
      match skip with
      | S k => split_from sep k cur s'
      | O =>
          if HasPrefix s sep
          then cur :: split_from sep (String.length sep - 1) EmptyString s'
          else split_from sep 0 (cur +:+ String c EmptyString) s'
      end
  end.

Definition Split (s sep : string) : list string := split_from sep 0 EmptyString s.

Fixpoint Join (l : list string) (sep : string) : string :=
  match l with
  | [] => EmptyString
  | [a] => a
  | a :: l' => a +:+ sep +:+ Join l' sep
  end.

Fixpoint mem_byte (c : ascii) (cutset : string) : bool :=
  match cutset with
  | EmptyString => false
  | String d cutset' => Ascii.eqb c d || mem_byte c cutset'
  end.

Fixpoint TrimLeftFunc (f : ascii -> bool) (s : string) : string :=
  match s with
  | EmptyString => EmptyString
  | String c s' => if f c then TrimLeftFunc f s' else s
  end.

Fixpoint TrimRightFunc (f : ascii -> bool) (s : string) : string :=
  match s with
  | EmptyString => EmptyString
  | String c s' =>
      match TrimRightFunc f s' with
      | EmptyString => if f c then EmptyString else String c EmptyString
      | t => String c t
      end
  end.

Definition Trim (s cutset : string) : string :=
  TrimRightFunc (fun c => mem_byte c cutset) (TrimLeftFunc (fun c => mem_byte c cutset) s).

Definition is_space (c : ascii) : bool :=
  byte_in 9 13 c || Ascii.eqb c " ".

Definition TrimSpace (s : string) : string :=
  TrimRightFunc is_space (TrimLeftFunc is_space s).

Fixpoint drop (n : nat) (s : string) : string :=
  match n, s with
  | O, _ => s
  | S _, EmptyString => EmptyString
  | S n', String _ s' => drop n' s'
  end.

Fixpoint take (n : nat) (s : string) : string :=
  match n, s with
  | O, _ => EmptyString
  | S _, EmptyString => EmptyString
  | S n', String c s' => String c (take n' s')
  end.

Definition HasSuffix (s suffix : string) : bool :=
  (String.length suffix <=? String.length s)%nat &&
  String.eqb (drop (String.length s - String.length suffix) s) suffix.

Definition TrimSuffix (s suffix : string) : string :=
  if HasSuffix s suffix then take (String.length s - String.length suffix) s else s.

(** The slice expression [s[lo:hi]]: a run-time panic unless
    [0 <= lo <= hi <= len(s)]. *)
Definition slice (s : string) (lo hi : Z) : exec string :=
  if ((0 <=? lo)%Z && (lo <=? hi)%Z && (hi <=? Z.of_nat (String.length s))%Z)%bool
  then Ret (take (Z.to_nat hi - Z.to_nat lo) (drop (Z.to_nat lo) s))
  else Panic "slice bounds out of range".

(** The index expression [s[i]] on a string. *)
Definition at_index (s : string) (i : nat) : exec ascii :=
  match String.get i s with
  | Some c => Ret c
  | None => Panic "index out of range"
  end.

End strings.

(** The index expression [l[i]] on a slice of strings. *)
Definition index_str (l : list string) (i : nat) : exec string :=
  match nth_error l i with
  | Some x => Ret x
  | None => Panic "index out of range"
  end.

(** ** Errors, library types and the standard library boundary *)

(** An error value made outside the package, by a library call or by the
    reader underneath, with its text. *)
Inductive liberror : Type := LibErr (msg : string).

(** The [error] values the parser returns: those handed back by a library
    call or by the underlying reader, and those it builds itself with
    [fmt.Errorf], one constructor per format string. *)
Inductive error : Type :=
| Foreign (e : liberror)
| ErrMediaType (header : string) (cause : liberror)
| ErrRelatedInner (contentType : string)
| ErrAlternativeInner (contentType : string)
| ErrMixedNested (contentType : string)
| ErrUnknownEncoding (encoding : string).

(** [mail.Address]. *)
Record Address : Type := mkAddress { Name : string; Addr : string }.

(** [time.Time], as seconds since the Unix epoch and a zone offset; the
    zero value is January 1, year 1, 00:00:00 UTC. *)
Record Time : Type := mkTime { unixSec : Z; zoneOffset : Z }.
Definition zeroTime : Time := mkTime (-62135596800) 0.

(** A single-byte codec of [golang.org/x/text/encoding/charmap]: the
    UTF-8 bytes of the character each of the 256 byte values stands for. *)
Definition Charmap : Type := ascii -> string.

(** [mail.Header] and [textproto.MIMEHeader]. *)
Abbreviation MIMEHeader := (gmap string (list string)).

(** ** Readers

    An [io.Reader] over MIME content.  [content] is what reading it to the
    end yields and [fault] the error, if any, that the read ends with.
    [parts boundary] are the parts that [multipart.NewReader(r, boundary)]
    hands out through [NextPart], in order, and [parts_end boundary] is what
    ends them: [None] for [io.EOF], [Some e] for any other error. *)
#[warning="-register-all"] Inductive Body : Type := mkBody {
  content : string;
  fault : option liberror;
  parts : string -> list (MIMEHeader * Body);
  parts_end : string -> option liberror
}.

(** A [multipart.Part]: its header and the reader over its body. *)
Abbreviation Part := (MIMEHeader * Body)%type.

(** What the parser takes from Go's standard library and from
    [golang.org/x/text]: the grammars named in the package's imports.  The
    development is parametric in them. *)
Class GoLib : Type := {
  (** [base64.StdEncoding.DecodeString] *)
  base64_DecodeString : string -> string + liberror;
  (** the bytes read from [base64.NewDecoder(base64.StdEncoding, r)] *)
  base64_NewDecoder : string -> string + liberror;
  (** the bytes read from [quotedprintable.NewReader(r)] *)
  quotedprintable_NewReader : string -> string + liberror;
  (** [Decode] of a fresh [mime.WordDecoder] *)
  WordDecoder_Decode : string -> string + liberror;
  (** [mime.ParseMediaType] *)
  ParseMediaType : string -> (string * gmap string string) + liberror;
  (** [mail.ParseAddress] and [mail.ParseAddressList] *)
  ParseAddress : string -> Address + liberror;
  ParseAddressList : string -> list Address + liberror;
  (** [time.Parse layout value] *)
  time_Parse : string -> string -> Time + liberror;
  (** [mail.ReadMessage]: the header block and the reader over the body *)
  ReadMessage : string -> (MIMEHeader * Body) + liberror;
  (** [textproto.CanonicalMIMEHeaderKey] *)
  CanonicalMIMEHeaderKey : string -> string;
  (** [strings.ToLower] on a string that has a byte outside ASCII, where it
      maps each character with the case tables of Unicode *)
  ToLower_unicode : string -> string;
  (** [FileName] of a [multipart.Part], a function of the part's header *)
  Part_FileName : MIMEHeader -> string;
  (** the four code pages of [decodeCharset] and [decodeKoi8] *)
  Windows1252 : Charmap;
  ISO8859_1 : Charmap;
  KOI8R : Charmap;
  Windows1251 : Charmap
}.

(** A leaf: nothing to split. *)
Definition leaf (data : string) : Body :=
  mkBody data None (fun _ => []) (fun _ => None).

(** The state of the reader a decoding function was handed (a part, or the
    message body): the bytes not yet read from it and its fault.  Reading
    consumes: this is the one mutable object the decoders share. *)
Record Stream : Type := mkStream { pending : string; broken : option liberror }.

Definition open (b : Body) : Stream := mkStream (content b) (fault b).

(** The [io.Reader] values the decoders build and store in the result. *)
Inductive Reader : Type :=
| rd_source                               (* the reader that was handed in, itself *)
| rd_bytes (b : string)                   (* [bytes.NewReader(b)] *)
| rd_charset (cm : Charmap) (r : Reader). (* [cm.NewDecoder().Reader(r)] *)

(** Decoding with a code page never fails: each byte is replaced by the
    UTF-8 bytes the table gives for it. *)
Fixpoint transcode (cm : Charmap) (s : string) : string :=
  match s with
  | EmptyString => EmptyString
  | String c s' => cm c +:+ transcode cm s'
  end.

(** [io.ReadAll(r)]: the bytes, the error, and the stream afterwards.  A
    [bytes.Reader] owns its bytes; [rd_source] drains the stream, whose
    fault stays; a charset reader transcodes what its source yields. *)
Fixpoint ReadAll (r : Reader) (st : Stream) : string * option error * Stream :=
  match r with
  | rd_source => (pending st, Foreign <$> broken st, mkStream EmptyString (broken st))
  | rd_bytes b => (b, None, st)
  | rd_charset cm r' =>
      let '(b, e, st') := ReadAll r' st in (transcode cm b, e, st')
  end.

(** [Header.Get]: the first value stored under the canonical form of the
    key, or the empty string. *)
Definition Header_Get `{GoLib} (h : MIMEHeader) (key : string) : string :=
  match h !! CanonicalMIMEHeaderKey key with
  | Some (v :: _) => v
  | _ => EmptyString
  end.

(** The parse results. *)
Record Attachment : Type := mkAttachment {
  Filename : string;
  at_ContentType : string;
  at_Data : option Reader
}.

Record EmbeddedFile : Type := mkEmbeddedFile {
  CID : string;
  ef_ContentType : string;
  ef_Data : option Reader
}.

Record Email : Type := mkEmail {
  Header : MIMEHeader;
  Subject : string;
  Sender : option Address;
  From : list Address;
  ReplyTo : list Address;
  To : list Address;
  Cc : list Address;
  Bcc : list Address;
  Date : Time;
  MessageID : string;
  InReplyTo : list string;
  References : list string;
  ResentFrom : list Address;
  ResentSender : option Address;
  ResentTo : list Address;
  ResentDate : Time;
  ResentCc : list Address;
  ResentBcc : list Address;
  ResentMessageID : string;
  ContentType : string;
  Content : option Reader;
  HTMLBody : string;
  TextBody : string;
  Attachments : list Attachment;
  EmbeddedFiles : list EmbeddedFile
}.

(** ** The parser *)

Section Parser.

Context `{GoLib}.

Import strings.

Definition contentTypeMultipartMixed : string := "multipart/mixed".
Definition contentTypeMultipartAlternative : string := "multipart/alternative".
Definition contentTypeMultipartRelated : string := "multipart/related".
Definition contentTypeTextHtml : string := "text/html".
Definition contentTypeTextPlain : string := "text/plain".

(** [strings.ToLower]: byte by byte on an ASCII string, by the tables of
    Unicode otherwise. *)
Definition ToLower (s : string) : string :=
  if isASCII s then ToLowerASCII s else ToLower_unicode s.

(** Characters that have no plain spelling inside a literal. *)
Definition LF : string := String "010"%char EmptyString.
Definition CR : string := String "013"%char EmptyString.
Definition DQUOTE : string := String "034"%char EmptyString.

(** A reader that holds nothing: what is left of a source once it has been
    read to the end. *)
Definition drained : Stream := mkStream EmptyString None.

(** *** [decodeKoi8] and [decodeMimeSentence]

    The diagnostics [decodeKoi8] prints with [fmt.Println] are not part of
    its result and are left out. *)

Definition prefixLen : nat := 11.

Definition decodeKoi8 (s : string) : exec (bool * string) :=
  if negb (HasPrefix (ToLower s) "=?koi8-r") then Ret (false, EmptyString)
  else
    p ← slice s 0 (Z.of_nat prefixLen);
    let prefix := ToLower p in
    origin ← slice s (Z.of_nat prefixLen) (Z.of_nat (String.length s) - 2);
    c ← at_index prefix (prefixLen - 2);
    let koi8 (decodedOrigin : string) : exec (bool * string) :=
      let '(decodedString, err, _) :=
        ReadAll (rd_charset KOI8R (rd_bytes decodedOrigin)) drained in
      match err with
      | Some _ => Ret (false, EmptyString)
      | None => Ret (true, decodedString)
      end in
    if Ascii.eqb c "b" then
      match base64_DecodeString origin with
      | inr _ => Ret (false, EmptyString)
      | inl decodedOrigin => koi8 decodedOrigin
      end
    else if Ascii.eqb c "q" then
      match quotedprintable_NewReader origin with
      | inr _ => Ret (false, EmptyString)
      | inl decodedOrigin => koi8 decodedOrigin
      end
    else Ret (false, EmptyString).

(** One turn of the loop over the words: the decoded word, or the word
    itself, after a space unless nothing has been collected yet. *)
Definition decodeWord (result : list string) (word : string) : list string :=
  let w :=
    match WordDecoder_Decode word with
    | inl w => w
    | inr _ =>
        if (List.length result =? 0)%nat then word else " " +:+ word
    end in
  result ++ [w].

Definition decodeWords (s : string) : string :=
  Join (fold_left decodeWord (Split s " ") []) EmptyString.

Definition decodeMimeSentence (s : string) : exec string :=
  '(success, str) ← decodeKoi8 s;
  if (success : bool) then Ret str else Ret (decodeWords s).

(** [decodeHeaderMime]: every value of every field decoded.  The error it
    returns is always nil. *)
Definition decodeHeaderMime (header : MIMEHeader) : exec (MIMEHeader * option error) :=
  l ← exec_mapM
        (fun kv : string * list string =>
           parsedHeaderData ← exec_mapM decodeMimeSentence (snd kv);
           Ret (fst kv, parsedHeaderData))
        (map_to_list header);
  Ret (list_to_map l, None).

(** *** The header field parser

    Every method of [headerParser] has a value receiver: it works on its
    own copy of the parser.  A method is therefore a function from the
    caller's parser to its result together with the copy as the method
    leaves it; the caller's parser is not changed by the call. *)

Record headerParser : Type := mkHeaderParser {
  hp_header : MIMEHeader;
  hp_err : option error
}.

Definition set_err (hp : headerParser) (e : option error) : headerParser :=
  mkHeaderParser (hp_header hp) e.

Definition blanks : string := " " +:+ LF.

Definition parseAddress (hp : headerParser) (s : string)
  : option Address * headerParser :=
  match hp_err hp with
  | Some _ => (None, hp)
  | None =>
      if negb (String.eqb (Trim s blanks) EmptyString) then
        match ParseAddress s with
        | inl ma => (Some ma, set_err hp None)
        | inr e => (None, set_err hp (Some (Foreign e)))
        end
      else (None, hp)
  end.

Definition parseAddressList (hp : headerParser) (s : string)
  : list Address * headerParser :=
  match hp_err hp with
  | Some _ => ([], hp)
  | None =>
      if negb (String.eqb (Trim s blanks) EmptyString) then
        match ParseAddressList s with
        | inl ma => (ma, set_err hp None)
        | inr e => ([], set_err hp (Some (Foreign e)))
        end
      else ([], hp)
  end.

Definition RFC1123Z : string := "Mon, 02 Jan 2006 15:04:05 -0700".

Definition formats : list string :=
  [ RFC1123Z;
    "Mon, 2 Jan 2006 15:04:05 -0700";
    RFC1123Z +:+ " (MST)";
    "Mon, 2 Jan 2006 15:04:05 -0700 (MST)" ].

(** The loop of [parseTime]: [time.Parse] gives the zero time with its
    error. *)
Fixpoint parseTime_loop (fs : list string) (s : string) (t : Time)
    (hp : headerParser) : Time * headerParser :=
  match fs with
  | [] => (t, hp)
  | format :: fs' =>
      match time_Parse format s with
      | inl t' => (t', set_err hp None)
      | inr e => parseTime_loop fs' s zeroTime (set_err hp (Some (Foreign e)))
      end
  end.

Definition parseTime (hp : headerParser) (s : string) : Time * headerParser :=
  if bool_decide (hp_err hp <> None) || String.eqb s EmptyString
  then (zeroTime, hp)
  else parseTime_loop formats s zeroTime hp.

Definition parseMessageId (hp : headerParser) (s : string)
  : string * headerParser :=
  match hp_err hp with
  | Some _ => (EmptyString, hp)
  | None => (Trim s "<> ", hp)
  end.

Definition parseMessageIdList (hp : headerParser) (s : string)
  : list string * headerParser :=
  match hp_err hp with
  | Some _ => ([], hp)
  | None =>
      (fold_left
         (fun result p =>
            if negb (String.eqb (Trim p blanks) EmptyString)
            then result ++ [fst (parseMessageId hp p)]
            else result)
         (Split s " ") [],
       hp)
  end.

(** Assignments to the fields of an [Email] that [ParseEmail] and
    [createEmailFromHeader] write after the value has been built. *)

Definition set_Header (email : Email) (v : MIMEHeader) : Email :=
  mkEmail v (Subject email) (Sender email) (From email) (ReplyTo email) (To email) (Cc email) (Bcc email) (Date email) (MessageID email) (InReplyTo email) (References email) (ResentFrom email) (ResentSender email) (ResentTo email) (ResentDate email) (ResentCc email) (ResentBcc email) (ResentMessageID email) (ContentType email) (Content email) (HTMLBody email) (TextBody email) (Attachments email) (EmbeddedFiles email).

Definition set_ContentType (email : Email) (v : string) : Email :=
  mkEmail (Header email) (Subject email) (Sender email) (From email) (ReplyTo email) (To email) (Cc email) (Bcc email) (Date email) (MessageID email) (InReplyTo email) (References email) (ResentFrom email) (ResentSender email) (ResentTo email) (ResentDate email) (ResentCc email) (ResentBcc email) (ResentMessageID email) v (Content email) (HTMLBody email) (TextBody email) (Attachments email) (EmbeddedFiles email).

Definition set_Content (email : Email) (v : option Reader) : Email :=
  mkEmail (Header email) (Subject email) (Sender email) (From email) (ReplyTo email) (To email) (Cc email) (Bcc email) (Date email) (MessageID email) (InReplyTo email) (References email) (ResentFrom email) (ResentSender email) (ResentTo email) (ResentDate email) (ResentCc email) (ResentBcc email) (ResentMessageID email) (ContentType email) v (HTMLBody email) (TextBody email) (Attachments email) (EmbeddedFiles email).

Definition set_HTMLBody (email : Email) (v : string) : Email :=
  mkEmail (Header email) (Subject email) (Sender email) (From email) (ReplyTo email) (To email) (Cc email) (Bcc email) (Date email) (MessageID email) (InReplyTo email) (References email) (ResentFrom email) (ResentSender email) (ResentTo email) (ResentDate email) (ResentCc email) (ResentBcc email) (ResentMessageID email) (ContentType email) (Content email) v (TextBody email) (Attachments email) (EmbeddedFiles email).

Definition set_TextBody (email : Email) (v : string) : Email :=
  mkEmail (Header email) (Subject email) (Sender email) (From email) (ReplyTo email) (To email) (Cc email) (Bcc email) (Date email) (MessageID email) (InReplyTo email) (References email) (ResentFrom email) (ResentSender email) (ResentTo email) (ResentDate email) (ResentCc email) (ResentBcc email) (ResentMessageID email) (ContentType email) (Content email) (HTMLBody email) v (Attachments email) (EmbeddedFiles email).

Definition set_Attachments (email : Email) (v : list Attachment) : Email :=
  mkEmail (Header email) (Subject email) (Sender email) (From email) (ReplyTo email) (To email) (Cc email) (Bcc email) (Date email) (MessageID email) (InReplyTo email) (References email) (ResentFrom email) (ResentSender email) (ResentTo email) (ResentDate email) (ResentCc email) (ResentBcc email) (ResentMessageID email) (ContentType email) (Content email) (HTMLBody email) (TextBody email) v (EmbeddedFiles email).

Definition set_EmbeddedFiles (email : Email) (v : list EmbeddedFile) : Email :=
  mkEmail (Header email) (Subject email) (Sender email) (From email) (ReplyTo email) (To email) (Cc email) (Bcc email) (Date email) (MessageID email) (InReplyTo email) (References email) (ResentFrom email) (ResentSender email) (ResentTo email) (ResentDate email) (ResentCc email) (ResentBcc email) (ResentMessageID email) (ContentType email) (Content email) (HTMLBody email) (TextBody email) (Attachments email) v.

Definition createEmailFromHeader (header : MIMEHeader) : exec (Email * option error) :=
  let hp := mkHeaderParser header None in
  subject ← decodeMimeSentence (Header_Get header "Subject");
  let email :=
    {| Header := ∅;
       Subject := subject;
       From := fst (parseAddressList hp (Header_Get header "From"));
       Sender := fst (parseAddress hp (Header_Get header "Sender"));
       ReplyTo := fst (parseAddressList hp (Header_Get header "Reply-To"));
       To := fst (parseAddressList hp (Header_Get header "To"));
       Cc := fst (parseAddressList hp (Header_Get header "Cc"));
       Bcc := fst (parseAddressList hp (Header_Get header "Bcc"));
       Date := fst (parseTime hp (Header_Get header "Date"));
       ResentFrom := fst (parseAddressList hp (Header_Get header "Resent-From"));
       ResentSender := fst (parseAddress hp (Header_Get header "Resent-Sender"));
       ResentTo := fst (parseAddressList hp (Header_Get header "Resent-To"));
       ResentCc := fst (parseAddressList hp (Header_Get header "Resent-Cc"));
       ResentBcc := fst (parseAddressList hp (Header_Get header "Resent-Bcc"));
       ResentMessageID := fst (parseMessageId hp (Header_Get header "Resent-Message-ID"));
       MessageID := fst (parseMessageId hp (Header_Get header "Message-ID"));
       InReplyTo := fst (parseMessageIdList hp (Header_Get header "In-Reply-To"));
       References := fst (parseMessageIdList hp (Header_Get header "References"));
       ResentDate := fst (parseTime hp (Header_Get header "Resent-Date"));
       ContentType := EmptyString;
       Content := None;
       HTMLBody := EmptyString;
       TextBody := EmptyString;
       Attachments := [];
       EmbeddedFiles := [] |} in
  match hp_err hp with
  | Some e => Ret (email, Some e)
  | None =>
      '(parsedHeader, err) ← decodeHeaderMime header;
      Ret (set_Header email parsedHeader, err)
  end.

(** *** Content types *)

Fixpoint exec_foldl {A B : Type} (f : A -> B -> exec A) (l : list B) (a : A) : exec A :=
  match l with
  | [] => Ret a
  | b :: l' => a' ← f a b; exec_foldl f l' a'
  end.

Definition sanitize_step (acc : gset string * list string) (p : string)
  : exec (gset string * list string) :=
  let '(seen, result) := acc in
  let p := TrimSpace p in
  if String.eqb p EmptyString then Ret (seen, result)
  else if Contains p "=" then
    k ← index_str (Split p "=") 0;
    if bool_decide (ToLower k ∈ seen) then Ret (seen, result)
    else Ret ({[ ToLower k ]} ∪ seen, result ++ [p])
  else Ret (seen, result ++ [p]).

Definition sanitizeContentTypeHeader (contentType : string) : exec string :=
  '(_, result) ← exec_foldl sanitize_step (Split contentType ";") (∅, []);
  Ret (Join result "; ").

Definition parseContentType (contentTypeHeader : string)
  : exec ((string * gmap string string) + error) :=
  if String.eqb contentTypeHeader EmptyString then Ret (inl (contentTypeTextPlain, ∅))
  else
    sane ← sanitizeContentTypeHeader contentTypeHeader;
    match ParseMediaType sane with
    | inl r => Ret (inl r)
    | inr e => Ret (inr (ErrMediaType contentTypeHeader e))
    end.

(** [params["boundary"]]: the empty string when the key is missing. *)
Definition param (params : gmap string string) (key : string) : string :=
  default EmptyString (params !! key).

(** *** Charset and transfer-encoding decoding *)

Definition quotes_and_blanks : string := " " +:+ DQUOTE +:+ "'" +:+ LF +:+ CR.

Definition decoders : gmap string Charmap :=
  {[ "windows-1252" := Windows1252;
     "iso-8859-1" := ISO8859_1;
     "koi8-r" := KOI8R;
     "windows-1251" := Windows1251 ]}.

(** The name [decodeCharset] works with: ["default"], or what stands
    between the first and the second ["; charset="], trimmed and in lower
    case. *)
Definition charsetOf (contentTypeWithCharset : string) : exec string :=
  if Contains contentTypeWithCharset "; charset=" then
    x ← index_str (Split contentTypeWithCharset "; charset=") 1;
    Ret (ToLower (Trim x quotes_and_blanks))
  else Ret "default".

Definition decodeCharset (content : Reader) (contentTypeWithCharset : string)
  : exec Reader :=
  charset ← charsetOf contentTypeWithCharset;
  if negb (String.eqb charset "default") then
    match decoders !! charset with
    | Some decoder => Ret (rd_charset decoder content)
    | None => Ret content
    end
  else Ret content.

(** Reading a reader to the end through a decoder of the library.  A fault
    of the reader underneath is what the read reports when there is one. *)
Definition ReadAll_decoded (decode : string -> string + liberror) (content : Reader)
    (st : Stream) : string * option error * Stream :=
  let '(raw, e, st') := ReadAll content st in
  match e with
  | Some e => (EmptyString, Some e, st')
  | None =>
      match decode raw with
      | inl b => (b, None, st')
      | inr e => (EmptyString, Some (Foreign e), st')
      end
  end.

Definition decodeContent (content : Reader) (encoding contentTypeWithCharset : string)
    (st : Stream) : exec ((Reader + error) * Stream) :=
  let enc := ToLower encoding in
  if String.eqb enc "base64" then
    let '(b, err, st') := ReadAll_decoded base64_NewDecoder content st in
    match err with
    | Some e => Ret (inr e, st')
    | None => r ← decodeCharset (rd_bytes b) contentTypeWithCharset; Ret (inl r, st')
    end
  else if String.eqb enc "7bit" || String.eqb enc "8bit" then
    let '(dd, err, st') := ReadAll content st in
    match err with
    | Some e => Ret (inr e, st')
    | None => r ← decodeCharset (rd_bytes dd) contentTypeWithCharset; Ret (inl r, st')
    end
  else if String.eqb enc "quoted-printable" then
    let '(b, err, st') := ReadAll_decoded quotedprintable_NewReader content st in
    match err with
    | Some e => Ret (inr e, st')
    | None => r ← decodeCharset (rd_bytes b) contentTypeWithCharset; Ret (inl r, st')
    end
  else if String.eqb enc EmptyString then
    r ← decodeCharset content contentTypeWithCharset; Ret (inl r, st)
  else Ret (inr (ErrUnknownEncoding encoding), st).

(** *** Embedded files and attachments

    Both work on one part; [st] is the state of the part's reader when the
    function is entered, and the state it leaves is returned. *)

Definition isEmbeddedFile (part : Part) : bool :=
  negb (String.eqb (Header_Get (fst part) "Content-Transfer-Encoding") EmptyString).

Definition zeroEmbeddedFile : EmbeddedFile := mkEmbeddedFile EmptyString EmptyString None.
Definition zeroAttachment : Attachment := mkAttachment EmptyString EmptyString None.

Definition decodeEmbeddedFile (part : Part) (st : Stream)
  : exec (EmbeddedFile * option error * Stream) :=
  cid ← decodeMimeSentence (Header_Get (fst part) "Content-Id");
  '(decoded, st') ← decodeContent rd_source
      (Header_Get (fst part) "Content-Transfer-Encoding")
      (Header_Get (fst part) "Content-Type") st;
  match decoded with
  | inr e => Ret (zeroEmbeddedFile, Some e, st')
  | inl decoded =>
      Ret (mkEmbeddedFile (Trim cid "<>")
             (Header_Get (fst part) "Content-Type") (Some decoded), None, st')
  end.

Definition isAttachment (part : Part) (contentType : string) : bool :=
  negb (String.eqb (Part_FileName (fst part)) EmptyString)
  || String.eqb contentType "application/octet-stream".

(** [now] is the reading of [time.Now().UnixNano()] the function would
    take. *)
Definition decodeAttachment (now : Z) (part : Part) (st : Stream)
  : exec (Attachment * option error * Stream) :=
  filename ← decodeMimeSentence (Part_FileName (fst part));
  let filename :=
    if String.eqb filename EmptyString then "attachment-" +:+ pretty now else filename in
  '(decoded, st1) ← decodeContent rd_source
      (Header_Get (fst part) "Content-Transfer-Encoding")
      (Header_Get (fst part) "Content-Type") st;
  match decoded with
  | inr e => Ret (zeroAttachment, Some e, st1)
  | inl decoded =>
      ct ← index_str (Split (Header_Get (fst part) "Content-Type") ";") 0;
      let at_ := mkAttachment filename ct (Some decoded) in
      if String.eqb ct "application/octet-stream" then
        let '(data, err, st2) := ReadAll rd_source st1 in
        match err with
        | Some e => Ret (at_, Some e, st2)
        | None => Ret (mkAttachment filename ct (Some (rd_bytes data)), None, st2)
        end
      else Ret (at_, None, st1)
  end.

(** *** The multipart walkers

    Each walker loops over the parts [NextPart] hands out; the accumulators
    are the named results of the Go function.  A part is read from the
    start of its body ([open]). *)

Definition AltResult : Type := string * string * list EmbeddedFile * option error.
Definition MixedResult : Type :=
  string * string * list Attachment * list EmbeddedFile * option error.

(** A text leaf as the Alternative and Mixed walkers read it: decoded, read
    to the end, one trailing newline removed. *)
Definition readDecodedLeaf (part : Part) : exec (string + error) :=
  '(newPart, st) ← decodeContent rd_source
      (Header_Get (fst part) "Content-Transfer-Encoding")
      (Header_Get (fst part) "Content-Type") (open (snd part));
  match newPart with
  | inr e => Ret (inr e)
  | inl newPart =>
      let '(ppContent, err, _) := ReadAll newPart st in
      match err with
      | Some e => Ret (inr e)
      | None => Ret (inl (TrimSuffix ppContent LF))
      end
  end.

(** A text leaf as the Related walker reads it: the part itself, read to
    the end, one trailing newline removed. *)
Definition readRawLeaf (part : Part) : string + error :=
  let '(ppContent, err, _) := ReadAll rd_source (open (snd part)) in
  match err with
  | Some e => inr e
  | None => inl (TrimSuffix ppContent LF)
  end.

(** The embedded-file branch, the same in both walkers but for the error. *)
Definition embeddedLeaf (unsupported : string -> error) (part : Part)
    (contentType : string) : exec (EmbeddedFile + error) :=
  if isEmbeddedFile part then
    '(ef, err, _) ← decodeEmbeddedFile part (open (snd part));
    match err with
    | Some e => Ret (inr e)
    | None => Ret (inl ef)
    end
  else Ret (inr (unsupported contentType)).

Fixpoint parseMultipartRelated (msg : Body) (boundary : string) {struct msg}
  : exec AltResult :=
  (fix loop (pmr : list Part) (textBody htmlBody : string)
       (embeddedFiles : list EmbeddedFile) {struct pmr} : exec AltResult :=
     match pmr with
     | [] => Ret (textBody, htmlBody, embeddedFiles, Foreign <$> parts_end msg boundary)
     | part :: pmr' =>
         sane ← sanitizeContentTypeHeader (Header_Get (fst part) "Content-Type");
         match ParseMediaType sane with
         | inr e =>
             Ret (textBody, htmlBody, embeddedFiles,
                  Some (ErrMediaType (Header_Get (fst part) "Content-Type") e))
         | inl (contentType, params) =>
             if String.eqb contentType contentTypeTextPlain then
               match readRawLeaf part with
               | inr e => Ret (textBody, htmlBody, embeddedFiles, Some e)
               | inl text => loop pmr' (textBody +:+ text) htmlBody embeddedFiles
               end
             else if String.eqb contentType contentTypeTextHtml then
               match readRawLeaf part with
               | inr e => Ret (textBody, htmlBody, embeddedFiles, Some e)
               | inl html => loop pmr' textBody (htmlBody +:+ html) embeddedFiles
               end
             else if String.eqb contentType contentTypeMultipartAlternative then
               '(tb, hb, ef, err) ←
                  parseMultipartAlternative (snd part) (param params "boundary");
               match err with
               | Some e => Ret (textBody, htmlBody, embeddedFiles, Some e)
               | None => loop pmr' (textBody +:+ tb) (htmlBody +:+ hb) (embeddedFiles ++ ef)
               end
             else
               r ← embeddedLeaf ErrRelatedInner part contentType;
               match r with
               | inr e => Ret (textBody, htmlBody, embeddedFiles, Some e)
               | inl ef => loop pmr' textBody htmlBody (embeddedFiles ++ [ef])
               end
         end
     end) (parts msg boundary) EmptyString EmptyString []

with parseMultipartAlternative (msg : Body) (boundary : string) {struct msg}
  : exec AltResult :=
  (fix loop (pmr : list Part) (textBody htmlBody : string)
       (embeddedFiles : list EmbeddedFile) {struct pmr} : exec AltResult :=
     match pmr with
     | [] => Ret (textBody, htmlBody, embeddedFiles, Foreign <$> parts_end msg boundary)
     | part :: pmr' =>
         sane ← sanitizeContentTypeHeader (Header_Get (fst part) "Content-Type");
         match ParseMediaType sane with
         | inr e =>
             Ret (textBody, htmlBody, embeddedFiles,
                  Some (ErrMediaType (Header_Get (fst part) "Content-Type") e))
         | inl (contentType, params) =>
             if String.eqb contentType contentTypeTextPlain then
               r ← readDecodedLeaf part;
               match r with
               | inr e => Ret (textBody, htmlBody, embeddedFiles, Some e)
               | inl text => loop pmr' (textBody +:+ text) htmlBody embeddedFiles
               end
             else if String.eqb contentType contentTypeTextHtml then
               r ← readDecodedLeaf part;
               match r with
               | inr e => Ret (textBody, htmlBody, embeddedFiles, Some e)
               | inl html => loop pmr' textBody (htmlBody +:+ html) embeddedFiles
               end
             else if String.eqb contentType contentTypeMultipartRelated then
               '(tb, hb, ef, err) ←
                  parseMultipartRelated (snd part) (param params "boundary");
               match err with
               | Some e => Ret (textBody, htmlBody, embeddedFiles, Some e)
               | None => loop pmr' (textBody +:+ tb) (htmlBody +:+ hb) (embeddedFiles ++ ef)
               end
             else
               r ← embeddedLeaf ErrAlternativeInner part contentType;
               match r with
               | inr e => Ret (textBody, htmlBody, embeddedFiles, Some e)
               | inl ef => loop pmr' textBody htmlBody (embeddedFiles ++ [ef])
               end
         end
     end) (parts msg boundary) EmptyString EmptyString [].

(** [clock i] is the reading of the system clock while the [i]-th part of
    the mixed body is being handled. *)
Fixpoint parseMultipartMixed_loop (clock : nat -> Z) (eof : option liberror)
    (mr : list Part) (i : nat) (textBody htmlBody : string)
    (attachments : list Attachment) (embeddedFiles : list EmbeddedFile)
  : exec MixedResult :=
  match mr with
  | [] => Ret (textBody, htmlBody, attachments, embeddedFiles, Foreign <$> eof)
  | part :: mr' =>
      sane ← sanitizeContentTypeHeader (Header_Get (fst part) "Content-Type");
      match ParseMediaType sane with
      | inr e =>
          Ret (textBody, htmlBody, attachments, embeddedFiles,
               Some (ErrMediaType (Header_Get (fst part) "Content-Type") e))
      | inl (contentType, params) =>
          if String.eqb contentType contentTypeMultipartAlternative then
            '(textBody, htmlBody, embeddedFiles, err) ←
               parseMultipartAlternative (snd part) (param params "boundary");
            match err with
            | Some e => Ret (textBody, htmlBody, attachments, embeddedFiles, Some e)
            | None =>
                parseMultipartMixed_loop clock eof mr' (S i)
                  textBody htmlBody attachments embeddedFiles
            end
          else if String.eqb contentType contentTypeMultipartRelated then
            '(textBody, htmlBody, embeddedFiles, err) ←
               parseMultipartRelated (snd part) (param params "boundary");
            match err with
            | Some e => Ret (textBody, htmlBody, attachments, embeddedFiles, Some e)
            | None =>
                parseMultipartMixed_loop clock eof mr' (S i)
                  textBody htmlBody attachments embeddedFiles
            end
          else if String.eqb contentType contentTypeTextPlain then
            r ← readDecodedLeaf part;
            match r with
            | inr e => Ret (textBody, htmlBody, attachments, embeddedFiles, Some e)
            | inl text =>
                parseMultipartMixed_loop clock eof mr' (S i)
                  (textBody +:+ text) htmlBody attachments embeddedFiles
            end
          else if String.eqb contentType contentTypeTextHtml then
            r ← readDecodedLeaf part;
            match r with
            | inr e => Ret (textBody, htmlBody, attachments, embeddedFiles, Some e)
            | inl html =>
                parseMultipartMixed_loop clock eof mr' (S i)
                  textBody (htmlBody +:+ html) attachments embeddedFiles
            end
          else if isAttachment part contentType then
            '(at_, err, _) ← decodeAttachment (clock i) part (open (snd part));
            match err with
            | Some e => Ret (textBody, htmlBody, attachments, embeddedFiles, Some e)
            | None =>
                parseMultipartMixed_loop clock eof mr' (S i)
                  textBody htmlBody (attachments ++ [at_]) embeddedFiles
            end
          else
            Ret (textBody, htmlBody, attachments, embeddedFiles,
                 Some (ErrMixedNested contentType))
      end
  end.

Definition parseMultipartMixed (clock : nat -> Z) (msg : Body) (boundary : string)
  : exec MixedResult :=
  parseMultipartMixed_loop clock (parts_end msg boundary) (parts msg boundary) 0
    EmptyString EmptyString [] [].

(** *** [ParseEmail]

    [r] is the raw message.  The Go function returns the pair of its two
    named results; [email] is nil only when [mail.ReadMessage] fails. *)
Definition ParseEmail (clock : nat -> Z) (r : string)
  : exec (option Email * option error) :=
  match ReadMessage r with
  | inr e => Ret (None, Some (Foreign e))
  | inl (header, body) =>
      '(email, err) ← createEmailFromHeader header;
      match err with
      | Some e => Ret (Some email, Some e)
      | None =>
          let email := set_ContentType email (Header_Get header "Content-Type") in
          parsed ← parseContentType (ContentType email);
          match parsed with
          | inr e => Ret (Some email, Some e)
          | inl (contentType, params) =>
              let encoding := Header_Get header "Content-Transfer-Encoding" in
              let withCharset := Header_Get header "Content-Type" in
              if String.eqb contentType contentTypeMultipartMixed then
                '(tb, hb, ats, efs, err) ←
                   parseMultipartMixed clock body (param params "boundary");
                Ret (Some (set_EmbeddedFiles (set_Attachments
                       (set_HTMLBody (set_TextBody email tb) hb) ats) efs), err)
              else if String.eqb contentType contentTypeMultipartAlternative then
                '(tb, hb, efs, err) ←
                   parseMultipartAlternative body (param params "boundary");
                Ret (Some (set_EmbeddedFiles
                       (set_HTMLBody (set_TextBody email tb) hb) efs), err)
              else if String.eqb contentType contentTypeMultipartRelated then
                '(tb, hb, efs, err) ←
                   parseMultipartRelated body (param params "boundary");
                Ret (Some (set_EmbeddedFiles
                       (set_HTMLBody (set_TextBody email tb) hb) efs), err)
              else if String.eqb contentType contentTypeTextPlain then
                '(newPart, st) ← decodeContent rd_source encoding withCharset (open body);
                match newPart with
                | inr e => Ret (Some email, Some e)
                | inl newPart =>
                    let '(message, _, _) := ReadAll newPart st in
                    Ret (Some (set_TextBody email (TrimSuffix message LF)), None)
                end
              else if String.eqb contentType contentTypeTextHtml then
                '(newPart, st) ← decodeContent rd_source encoding withCharset (open body);
                match newPart with
                | inr e => Ret (Some email, Some e)
                | inl newPart =>
                    let '(message, err, _) := ReadAll newPart st in
                    match err with
                    | Some e => Ret (Some email, Some e)
                    | None => Ret (Some (set_HTMLBody email (TrimSuffix message LF)), None)
                    end
                end
              else
                '(content, _) ← decodeContent rd_source encoding withCharset (open body);
                match content with
                | inr e => Ret (Some (set_Content email None), Some e)
                | inl content => Ret (Some (set_Content email (Some content)), None)
                end
          end
      end
  end.

End Parser.

(** ** Vocabulary of the properties *)

Section Vocabulary.

Context `{GoLib}.

Import strings.

(** What the [i]-th word of a header value contributes to the result of
    the loop of [decodeMimeSentence]. *)
Definition piece (i : nat) (word : string) : string :=
  match WordDecoder_Decode word with
  | inl w => w
  | inr _ => match i with O => word | S _ => " " +:+ word end
  end.

Definition undecodable (word : string) : Prop :=
  exists e, WordDecoder_Decode word = inr e.

Definition spaceless (w : string) : Prop := Contains w " " = false.

(** The code page a charset name selects, if any. *)
Definition codecOf (name : string) : option Charmap :=
  if String.eqb name "windows-1252" then Some Windows1252
  else if String.eqb name "iso-8859-1" then Some ISO8859_1
  else if String.eqb name "koi8-r" then Some KOI8R
  else if String.eqb name "windows-1251" then Some Windows1251
  else None.

Definition recognizedEncodings : list string :=
  ["base64"; "quoted-printable"; "7bit"; "8bit"; EmptyString].

Definition recognized (encoding : string) : bool :=
  existsb (String.eqb (ToLower encoding)) recognizedEncodings.

Definition topLevelKinds : list string :=
  [contentTypeMultipartMixed; contentTypeMultipartAlternative;
   contentTypeMultipartRelated; contentTypeTextPlain; contentTypeTextHtml].

Definition isTopLevelKind (contentType : string) : bool :=
  existsb (String.eqb contentType) topLevelKinds.

End Vocabulary.

(** ** The library at the inputs of the examples

    [go_values] records what Go's standard library returns at the inputs
    the examples of this file pass to it, so that the parser can be run on
    them.  It is a table, not a model of the library: at an input that is
    not listed a function answers with an error (or the empty string), the
    code pages are given on the ASCII range only, where the four of them
    are the identity, and [ToLower_unicode] is given at the two strings
    with a Kelvin sign that the examples lower-case. *)

Definition upper_byte (c : ascii) : ascii :=
  if strings.byte_in 97 122 c then ascii_of_N (N_of_ascii c - 32) else c.

(** [textproto.CanonicalMIMEHeaderKey] on a key made of letters, digits and
    hyphens: an upper-case letter first and after each hyphen, lower case
    elsewhere. *)
Fixpoint canonicalKey (upper : bool) (s : string) : string :=
  match s with
  | EmptyString => EmptyString
  | String c s' =>
      String (if upper then upper_byte c else strings.lower_byte c)
             (canonicalKey (Ascii.eqb c "-") s')
  end.

Definition lookup_table {A : Type} (table : list (string * A)) (miss : string)
    (s : string) : A + liberror :=
  match List.find (fun kv => String.eqb (fst kv) s) table with
  | Some kv => inl (snd kv)
  | None => inr (LibErr miss)
  end.

Definition ascii_page : Charmap := fun c => String c EmptyString.

(** The Kelvin sign U+212A in UTF-8; its lower case is the letter k. *)
Definition KELVIN : string :=
  String "226"%char (String "132"%char (String "170"%char EmptyString)).

(** A KOI8-R word whose K is a Kelvin sign, and its first eleven bytes. *)
Definition kelvin_word : string := "=?" +:+ KELVIN +:+ "OI8-R?B?abcd?=".
Definition kelvin_prefix : string := "=?" +:+ KELVIN +:+ "OI8-R?".

Definition referenceTime : Time := mkTime 1136239445 (-25200).

Definition pdf_message : string :=
  "Content-Type: application/pdf" +:+ CR +:+ LF +:+ CR +:+ LF +:+ "%PDF-1.4".

#[global] Instance go_values : GoLib := {|
  base64_DecodeString :=
    lookup_table [("", ""); ("aGk=", "hi")] "illegal base64 data";
  base64_NewDecoder :=
    lookup_table [("", ""); ("aGk=", "hi")] "illegal base64 data";
  quotedprintable_NewReader :=
    lookup_table [("", ""); ("hi", "hi")] "quotedprintable: invalid bytes";
  WordDecoder_Decode :=
    lookup_table
      [("=?UTF-8?B?YQ==?=", "a"); ("=?UTF-8?B?Yg==?=", "b");
       ("=?UTF-8?B?Yw==?=", "c"); ("=?UTF-8?B?ZA==?=", "d");
       ("=?UTF-8?B?aGk=?=", "hi")]
      "mime: invalid RFC 2047 encoded-word";
  ParseMediaType :=
    lookup_table
      [("text/plain", ("text/plain", ∅));
       ("text/html", ("text/html", ∅));
       ("application/pdf", ("application/pdf", ∅));
       ("application/octet-stream", ("application/octet-stream", ∅));
       ("multipart/alternative; boundary=inner",
        ("multipart/alternative", {[ "boundary" := "inner" ]}))]
      "mime: no media type";
  ParseAddress :=
    lookup_table [("a@b.c", mkAddress "" "a@b.c")] "mail: missing '@' or angle-addr";
  ParseAddressList :=
    lookup_table [("a@b.c", [mkAddress "" "a@b.c"])] "mail: missing '@' or angle-addr";
  time_Parse := fun layout =>
    lookup_table
      (if String.eqb layout "Mon, 02 Jan 2006 15:04:05 -0700"
       then [("Mon, 02 Jan 2006 15:04:05 -0700", referenceTime)] else [])
      "parsing time: cannot parse";
  ReadMessage :=
    lookup_table
      [(pdf_message,
        ({[ "Content-Type" := ["application/pdf"] ]},
         mkBody "%PDF-1.4" None (fun _ => []) (fun _ => None)))]
      "malformed MIME header line";
  CanonicalMIMEHeaderKey := canonicalKey true;
  ToLower_unicode := fun s =>
    match lookup_table
            [(kelvin_word, "=?koi8-r?b?abcd?="); (kelvin_prefix, "=?koi8-r?")]
            EmptyString s with
    | inl lower => lower
    | inr _ => s
    end;
  Part_FileName := fun _ => EmptyString;
  Windows1252 := ascii_page;
  ISO8859_1 := ascii_page;
  KOI8R := ascii_page;
  Windows1251 := ascii_page
|}.

(** A multipart body, given by the parts its boundary delimits; with any
    other boundary the reader finds no part and ends in an error.  The
    walkers never read the raw bytes of such a body. *)
Definition multipart (boundary : string) (ps : list Part) : Body :=
  mkBody EmptyString None
    (fun b => if String.eqb b boundary then ps else [])
    (fun b => if String.eqb b boundary then None
              else Some (LibErr "multipart: NextPart: EOF")).

Definition plain (text : string) : Part :=
  ({[ "Content-Type" := ["text/plain"] ]}, leaf text).

Definition nested_alternative : Part :=
  ({[ "Content-Type" := ["multipart/alternative; boundary=inner"] ]},
   multipart "inner" [plain "B"]).

(** A text part ["A"] followed by a nested alternative holding ["B"]. *)
Definition mixed_body : Body := multipart "outer" [plain "A"; nested_alternative].

(** A text part whose body is the base64 form of ["hi"]. *)
Definition base64_text : Part :=
  ({[ "Content-Type" := ["text/plain"];
      "Content-Transfer-Encoding" := ["base64"] ]}, leaf "aGk=").

(** A binary part with the given [Content-Transfer-Encoding] values. *)
Definition octet (encoding : list string) : Part :=
  ({[ "Content-Type" := ["application/octet-stream"];
      "Content-Transfer-Encoding" := encoding ]}, leaf "aGk=").

Definition bad_from : MIMEHeader := {[ "From" := ["foo"]; "To" := ["a@b.c"] ]}.


Definition koi8_then_utf8 : string := "=?koi8-r?X?abcd?= =?UTF-8?B?aGk=?=".

(** The parts of a result the examples look at. *)
Definition outcome (r : Email * option error)
  : option error * list Address * list Address :=
  (snd r, From (fst r), To (fst r)).

Definition payload (r : Attachment * option error * Stream)
  : option Reader * option error :=
  (at_Data (fst (fst r)), snd (fst r)).

(** ** Vocabulary of the further properties *)

Section Edges.

Import strings.

Definition first_byte (s : string) : option ascii :=
  match s with
  | EmptyString => None
  | String c _ => Some c
  end.

Fixpoint last_byte (s : string) : option ascii :=
  match s with
  | EmptyString => None
  | String c EmptyString => Some c
  | String _ s' => last_byte s'
  end.

(** Every byte of [s] satisfies [f]. *)
Fixpoint all_bytes (f : ascii -> bool) (s : string) : bool :=
  match s with
  | EmptyString => true
  | String c s' => f c && all_bytes f s'
  end.

(** [s] neither begins nor ends with a byte that satisfies [f]. *)
Definition edges_free (f : ascii -> bool) (s : string) : bool :=
  negb (from_option f false (first_byte s)) && negb (from_option f false (last_byte s)).

Definition in_cutset (cutset : string) (c : ascii) : bool := mem_byte c cutset.

(** The bytes other than [d]: what the pieces that [Split] cuts at the
    one-byte separator [d] are made of. *)
Definition other_than (d : ascii) (c : ascii) : bool := negb (Ascii.eqb c d).

(** A message id as [parseMessageIdList] returns it: no space inside, and
    neither an angle bracket nor a space at either end. *)
Definition bare_id (id : string) : bool :=
  all_bytes (other_than " ") id && edges_free (in_cutset "<> ") id.

(** A list of message ids as it is written in a header field. *)
Definition bracketed (ids : list string) : string :=
  Join (map (fun id => "<" +:+ id +:+ ">") ids) " ".

End Edges.

Section ContentTypeParams.

Context `{GoLib}.

Import strings.

(** The segments of a [Content-Type] value that [sanitizeContentTypeHeader]
    looks at: the pieces between semicolons, trimmed, the empty ones left
    out. *)
Definition segments (contentType : string) : list string :=
  List.filter (fun p => negb (String.eqb p EmptyString))
    (map TrimSpace (Split contentType ";")).

(** A segment that is a parameter, and the name it is compared by. *)
Definition hasEq (p : string) : bool := Contains p "=".

Definition paramKey (p : string) : string := ToLower (hd EmptyString (Split p "=")).

(** The segments that are left of [ps] when a parameter is dropped once
    its name is in [seen] or has occurred before it. *)
Fixpoint distinct_keys (seen : gset string) (ps : list string) : list string :=
  match ps with
  | [] => []
  | p :: ps' =>
      if hasEq p then
        if bool_decide (paramKey p ∈ seen) then distinct_keys seen ps'
        else p :: distinct_keys ({[ paramKey p ]} ∪ seen) ps'
      else p :: distinct_keys seen ps'
  end.

(** The parameter names among [ps]. *)
Definition keys_of (ps : list string) : list string :=
  map paramKey (List.filter hasEq ps).

Definition has_key (ps : list string) (p : string) : bool :=
  existsb (String.eqb (paramKey p)) (keys_of ps).

(** A segment as the sanitizer writes it: not empty, no blank at either
    end, no semicolon. *)
Definition segment_like (p : string) : bool :=
  negb (String.eqb p EmptyString) && edges_free is_space p &&
  all_bytes (other_than ";") p.

End ContentTypeParams.

Section Leaves.

Context `{GoLib}.

Import strings.

(** Whether reading [r] reads from the reader that was handed in. *)
Fixpoint reads_source (r : Reader) : bool :=
  match r with
  | rd_source => true
  | rd_bytes _ => false
  | rd_charset _ r' => reads_source r'
  end.

(** The media type the walkers find for a part. *)
Definition hasMediaType (part : Part) (contentType : string) : Prop :=
  exists sane params,
    sanitizeContentTypeHeader (Header_Get (fst part) "Content-Type") = Ret sane /\
    ParseMediaType sane = inl (contentType, params).

(** The two kinds of text leaves, and the text a list of leaves
    contributes to the body of one kind, in the order of the list. *)
Inductive TextKind : Type := Plain | Html.

Definition kindName (k : TextKind) : string :=
  match k with
  | Plain => contentTypeTextPlain
  | Html => contentTypeTextHtml
  end.

Definition sameKind (a b : TextKind) : bool :=
  match a, b with
  | Plain, Plain | Html, Html => true
  | _, _ => false
  end.

Fixpoint textOf (k : TextKind) (leaves : list (TextKind * string)) : string :=
  match leaves with
  | [] => EmptyString
  | (k', text) :: leaves' =>
      if sameKind k' k then text +:+ textOf k leaves' else textOf k leaves'
  end.

(** A text leaf with its kind and the text it yields: as the Related
    walker reads it, and as the Alternative and Mixed walkers do. *)
Definition rawLeaf (part : Part) (d : TextKind * string) : Prop :=
  hasMediaType part (kindName (fst d)) /\ readRawLeaf part = inl (snd d).

Definition decodedLeaf (part : Part) (d : TextKind * string) : Prop :=
  hasMediaType part (kindName (fst d)) /\ readDecodedLeaf part = Ret (inl (snd d)).

(** A part that declares neither a transfer encoding nor a charset. *)
Definition undecorated (part : Part) : Prop :=
  Header_Get (fst part) "Content-Transfer-Encoding" = EmptyString /\
  Contains (Header_Get (fst part) "Content-Type") "; charset=" = false.

(** The media types each walker has a branch for. *)
Definition handledByRelated : list string :=
  [contentTypeTextPlain; contentTypeTextHtml; contentTypeMultipartAlternative].

Definition handledByAlternative : list string :=
  [contentTypeTextPlain; contentTypeTextHtml; contentTypeMultipartRelated].

Definition handledByMixed : list string :=
  [contentTypeMultipartAlternative; contentTypeMultipartRelated;
   contentTypeTextPlain; contentTypeTextHtml].

Definition handled (kinds : list string) (contentType : string) : bool :=
  existsb (String.eqb contentType) kinds.

End Leaves.

(** ** Further inputs of the examples *)

(** The library of [go_values] with one more message: [mail.ReadMessage]
    on [raw] gives [message]. *)
Definition reading (raw : string) (message : MIMEHeader * Body) : GoLib := {|
  base64_DecodeString := @base64_DecodeString go_values;
  base64_NewDecoder := @base64_NewDecoder go_values;
  quotedprintable_NewReader := @quotedprintable_NewReader go_values;
  WordDecoder_Decode := @WordDecoder_Decode go_values;
  ParseMediaType := @ParseMediaType go_values;
  ParseAddress := @ParseAddress go_values;
  ParseAddressList := @ParseAddressList go_values;
  time_Parse := @time_Parse go_values;
  ReadMessage := fun r =>
    if String.eqb r raw then inl message else @ReadMessage go_values r;
  CanonicalMIMEHeaderKey := @CanonicalMIMEHeaderKey go_values;
  ToLower_unicode := @ToLower_unicode go_values;
  Part_FileName := @Part_FileName go_values;
  Windows1252 := @Windows1252 go_values;
  ISO8859_1 := @ISO8859_1 go_values;
  KOI8R := @KOI8R go_values;
  Windows1251 := @Windows1251 go_values
|}.

Definition html (text : string) : Part :=
  ({[ "Content-Type" := ["text/html"] ]}, leaf text).

Definition pdf_part : Part :=
  ({[ "Content-Type" := ["application/pdf"] ]}, leaf "%PDF-1.4").

(** A header block with a field that holds the bare KOI8-R marker. *)
Definition marker_header : MIMEHeader := {[ "X-Mailer" := ["=?koi8-r"] ]}.

(** A text message whose body ends in a read error after ["partial"]. *)
Definition truncated (contentType : string) : MIMEHeader * Body :=
  ({[ "Content-Type" := [contentType] ]},
   mkBody "partial" (Some (LibErr "unexpected EOF")) (fun _ => []) (fun _ => None)).

(** A multipart/alternative message with a plain and an HTML leaf. *)
Definition alternative_message : MIMEHeader * Body :=
  ({[ "Content-Type" := ["multipart/alternative; boundary=inner"] ]},
   multipart "inner" [plain "A"; html "<p>A</p>"]).

(** An inline file: base64, with a content id in angle brackets. *)
Definition inline_logo : Part :=
  ({[ "Content-Type" := ["application/pdf; name=logo"];
      "Content-Transfer-Encoding" := ["base64"];
      "Content-Id" := ["<logo>"] ]}, leaf "aGk=").

(** * Properties *)

(** ** Strings *)

Section StringFacts.

Import strings.

Lemma app_cons (c : ascii) (s t : string) : String c s +:+ t = String c (s +:+ t).
Proof. reflexivity. Qed.

Lemma app_empty_l (s : string) : EmptyString +:+ s = s.
Proof. reflexivity. Qed.

Lemma app_empty_r (s : string) : s +:+ EmptyString = s.
Proof. induction s as [|c s IH]; [reflexivity|]. rewrite app_cons, IH. reflexivity. Qed.

Lemma app_assoc_str (a b c : string) : (a +:+ b) +:+ c = a +:+ (b +:+ c).
Proof. induction a as [|x a IH]; [reflexivity|]. rewrite !app_cons, IH. reflexivity. Qed.

Lemma split_from_length (sep : string) (k : nat) (cur s : string) :
  (1 <= List.length (split_from sep k cur s))%nat.
Proof.
  revert k cur. induction s as [|c s IH]; intros k cur; cbn [split_from]; [simpl; lia|].
  destruct k as [|k]; [|apply IH].
  destruct (HasPrefix (String c s) sep); [cbn [List.length]; lia | apply IH].
Qed.

Lemma split_from_nonnil (sep : string) (k : nat) (cur s : string) :
  split_from sep k cur s <> [].
Proof.
  pose proof (split_from_length sep k cur s).
  destruct (split_from sep k cur s); simpl in *; [lia | congruence].
Qed.

(** Where the separator occurs, [Split] yields at least two pieces. *)
Lemma Contains_split_from (sep cur s : string) :
  sep <> EmptyString -> Contains s sep = true ->
  (2 <= List.length (split_from sep 0 cur s))%nat.
Proof.
  intros Hsep. revert cur. induction s as [|c s IH]; intros cur Hc.
  - destruct sep; [congruence | discriminate Hc].
  - cbn [split_from]. destruct (HasPrefix (String c s) sep) eqn:Hp.
    + cbn [List.length].
      pose proof (split_from_length sep (String.length sep - 1) EmptyString s). lia.
    + apply IH. cbn [Contains] in Hc. rewrite Hp in Hc. exact Hc.
Qed.

Lemma Split_index_1 (s sep : string) :
  sep <> EmptyString -> Contains s sep = true ->
  exists x, nth_error (Split s sep) 1 = Some x.
Proof.
  intros Hsep Hc. pose proof (Contains_split_from sep EmptyString s Hsep Hc) as Hl.
  unfold Split. destruct (split_from sep 0 EmptyString s) as [|a [|b l]]; simpl in Hl; try lia.
  exists b. reflexivity.
Qed.

Lemma Join_cons (a : string) (l : list string) (sep : string) :
  l <> [] -> Join (a :: l) sep = a +:+ sep +:+ Join l sep.
Proof. destruct l; [congruence | reflexivity]. Qed.

Lemma Join_empty_cons (a : string) (l : list string) :
  Join (a :: l) EmptyString = a +:+ Join l EmptyString.
Proof. destruct l; [cbn [Join]; rewrite app_empty_r; reflexivity | reflexivity]. Qed.

Lemma Join_split_space (cur s : string) :
  Join (split_from " " 0 cur s) " " = cur +:+ s.
Proof.
  revert cur. induction s as [|c s IH]; intros cur.
  - simpl. rewrite app_empty_r. reflexivity.
  - cbn [split_from]. destruct (HasPrefix (String c s) " ") eqn:Hp.
    + cbn [String.length Nat.sub]. rewrite Join_cons by apply split_from_nonnil.
      rewrite IH. cbn [HasPrefix] in Hp.
      destruct (Ascii.eqb c " ") eqn:Hc; [|discriminate].
      apply Ascii.eqb_eq in Hc. subst c. reflexivity.
    + rewrite IH. rewrite app_assoc_str. reflexivity.
Qed.

(** Splitting on a space and joining with a space gives the string back. *)
Lemma Join_Split_space (s : string) : Join (Split s " ") " " = s.
Proof. apply Join_split_space. Qed.

Lemma Join_space_prefix (a : string) (ws : list string) :
  Join (a :: ws) " " = a +:+ Join (map (fun w => " " +:+ w) ws) EmptyString.
Proof.
  revert a. induction ws as [|w ws IH]; intros a.
  - cbn [Join map]. rewrite app_empty_r. reflexivity.
  - rewrite Join_cons by congruence. rewrite IH. cbn [map]. rewrite Join_empty_cons.
    rewrite app_assoc_str. reflexivity.
Qed.

Lemma split_spaceless (cur a : string) :
  Contains a " " = false -> split_from " " 0 cur a = [cur +:+ a].
Proof.
  revert cur. induction a as [|c a IH]; intros cur Hs.
  - cbn. rewrite app_empty_r. reflexivity.
  - cbn [Contains] in Hs. apply orb_false_iff in Hs as [Hp Hs].
    cbn [split_from]. rewrite Hp. rewrite (IH _ Hs). rewrite app_assoc_str. reflexivity.
Qed.

Lemma split_token (cur a b : string) :
  Contains a " " = false ->
  split_from " " 0 cur (a +:+ " " +:+ b) = (cur +:+ a) :: split_from " " 0 EmptyString b.
Proof.
  revert cur. induction a as [|c a IH]; intros cur Hs.
  - rewrite app_empty_l, app_empty_r, app_cons, app_empty_l. reflexivity.
  - cbn [Contains] in Hs. apply orb_false_iff in Hs as [Hp Hs].
    rewrite app_cons. cbn [split_from].
    assert (Hq : HasPrefix (String c (a +:+ " " +:+ b)) " " = false) by exact Hp.
    rewrite Hq, (IH _ Hs), app_assoc_str. reflexivity.
Qed.

Lemma slice_returns (s : string) (lo hi : Z) :
  (0 <= lo)%Z -> (lo <= hi)%Z -> (hi <= Z.of_nat (String.length s))%Z ->
  slice s lo hi = Ret (take (Z.to_nat hi - Z.to_nat lo) (drop (Z.to_nat lo) s)).
Proof.
  intros H1 H2 H3. unfold slice.
  rewrite (proj2 (Z.leb_le _ _) H1), (proj2 (Z.leb_le _ _) H2), (proj2 (Z.leb_le _ _) H3).
  reflexivity.
Qed.

Lemma slice_prefix (s : string) (n : nat) :
  (n <= String.length s)%nat -> slice s 0 (Z.of_nat n) = Ret (take n s).
Proof.
  intros Hn. rewrite slice_returns by lia.
  rewrite Nat2Z.id, Nat.sub_0_r. reflexivity.
Qed.

Lemma ToLowerASCII_length (s : string) :
  String.length (ToLowerASCII s) = String.length s.
Proof. induction s; simpl; congruence. Qed.

Lemma take_length (n : nat) (s : string) :
  (n <= String.length s)%nat -> String.length (take n s) = n.
Proof.
  revert s. induction n as [|n IH]; intros s Hn; [reflexivity|].
  destruct s; simpl in *; [lia|]. rewrite IH; [reflexivity | lia].
Qed.

Lemma get_in_range (i : nat) (s : string) :
  (i < String.length s)%nat -> exists c, String.get i s = Some c.
Proof.
  revert i. induction s as [|c s IH]; intros i Hi; simpl in Hi; [lia|].
  destruct i; simpl; [eauto | apply IH; lia].
Qed.

End StringFacts.

(** ** The decoders *)

Section Properties.

Context `{GoLib}.

Import strings.

Lemma bind_Ret {A B : Type} (a : A) (k : A -> exec B) : (Ret a ≫= k) = k a.
Proof. reflexivity. Qed.

Lemma bind_inv {A B : Type} (m : exec A) (k : A -> exec B) (b : B) :
  (m ≫= k) = Ret b -> exists a, m = Ret a /\ k a = Ret b.
Proof. destruct m as [a|msg]; [eauto | discriminate]. Qed.

(** *** Header values *)

(** The loop of [decodeMimeSentence] appends one piece per word; whether a
    piece is the first is the same as whether nothing was collected. *)
Lemma fold_decodeWord (ws acc : list string) :
  fold_left decodeWord ws acc = acc ++ imap (fun i => piece (List.length acc + i)) ws.
Proof.
  revert acc. induction ws as [|w ws IH]; intros acc.
  - simpl. rewrite app_nil_r. reflexivity.
  - cbn [fold_left]. rewrite IH. unfold decodeWord.
    cbn [imap]. rewrite <- app_assoc. f_equal. cbn [app]. f_equal.
    + unfold piece. rewrite Nat.add_0_r.
      destruct (WordDecoder_Decode w); [reflexivity|].
      destruct (List.length acc); reflexivity.
    + apply imap_ext. intros i x _. cbn. rewrite length_app. cbn [List.length].
      f_equal. lia.
Qed.

Lemma decodeWords_pieces (s : string) :
  decodeWords s = Join (imap piece (Split s " ")) EmptyString.
Proof. unfold decodeWords. rewrite fold_decodeWord. reflexivity. Qed.

Lemma Join_pieces_undecodable (k : nat) (ws : list string) :
  Forall undecodable ws ->
  Join (imap (fun i => piece (S (k + i))) ws) EmptyString =
  Join (map (fun w => " " +:+ w) ws) EmptyString.
Proof.
  revert k. induction ws as [|w ws IH]; intros k Hall; [reflexivity|].
  inversion Hall as [|? ? [e He] Hall']; subst.
  cbn [imap map]. rewrite !Join_empty_cons. f_equal.
  - unfold piece. rewrite He. reflexivity.
  - rewrite <- (IH (S k) Hall'). apply (f_equal (fun l => Join l EmptyString)).
    apply imap_ext. intros i x _. reflexivity.
Qed.

(** When no word decodes, the loop rebuilds its input. *)
Lemma decodeWords_undecodable (s : string) :
  Forall undecodable (Split s " ") -> decodeWords s = s.
Proof.
  intros Hall. rewrite decodeWords_pieces.
  rewrite <- (Join_Split_space s) at 2.
  destruct (Split s " ") as [|w ws] eqn:Hs.
  - exfalso. revert Hs. apply split_from_nonnil.
  - inversion Hall as [|? ? [e He] Hall']; subst.
    cbn [imap]. rewrite Join_empty_cons. rewrite Join_space_prefix. f_equal.
    + unfold piece. rewrite He. reflexivity.
    + apply (Join_pieces_undecodable 0 ws Hall').
Qed.

Lemma Split_Join_tokens (ws : list string) :
  ws <> [] -> Forall spaceless ws -> Split (Join ws " ") " " = ws.
Proof.
  unfold Split. induction ws as [|a ws IH]; intros Hne Hall; [congruence|].
  inversion Hall as [|? ? Ha Hall']; subst.
  destruct ws as [|b ws].
  - cbn [Join]. apply (split_spaceless EmptyString a Ha).
  - rewrite Join_cons by congruence. rewrite split_token by exact Ha.
    rewrite IH by (congruence || assumption). reflexivity.
Qed.

Lemma decodeMimeSentence_slow (s : string) :
  HasPrefix (ToLower s) "=?koi8-r" = false ->
  decodeMimeSentence s = Ret (decodeWords s).
Proof.
  intros Hp. unfold decodeMimeSentence, decodeKoi8. rewrite Hp. reflexivity.
Qed.

(** From thirteen bytes on, both slices of [decodeKoi8] are in range, and
    so is the index into the lower-cased prefix when the prefix is ASCII. *)
Lemma decodeKoi8_returns (s : string) :
  isASCII (take prefixLen s) = true ->
  (13 <= String.length s)%nat -> returns (decodeKoi8 s).
Proof.
  intros Hascii Hlen. unfold decodeKoi8, returns.
  destruct (negb (HasPrefix (ToLower s) "=?koi8-r")); [eauto|].
  rewrite (slice_prefix s prefixLen) by (unfold prefixLen; lia).
  cbn [mbind exec_bind].
  rewrite (slice_returns s (Z.of_nat prefixLen) (Z.of_nat (String.length s) - 2))
    by (unfold prefixLen; lia).
  cbn [mbind exec_bind].
  destruct (get_in_range (prefixLen - 2) (ToLower (take prefixLen s))) as [c Hc].
  { unfold ToLower. rewrite Hascii.
    rewrite ToLowerASCII_length, take_length; unfold prefixLen; lia. }
  unfold at_index. rewrite Hc. cbn [mbind exec_bind].
  destruct (Ascii.eqb c "b").
  - destruct (base64_DecodeString _); [|eauto].
    cbn. eauto.
  - destruct (Ascii.eqb c "q"); [|eauto].
    destruct (quotedprintable_NewReader _); [|eauto].
    cbn. eauto.
Qed.


(** C4 (as amended).  For a value of at least thirteen bytes that starts
    with the marker and whose first eleven bytes are ASCII, the fast path
    returns normally; when it reports failure [decodeMimeSentence] goes on
    to the general path, whose result is the value itself whenever none of
    its space-separated words decodes. *)
Theorem decodeKoi8_fallback (s : string) :
  HasPrefix (ToLower s) "=?koi8-r" = true ->
  isASCII (take prefixLen s) = true ->
  (13 <= String.length s)%nat ->
  returns (decodeKoi8 s) /\
  returns (decodeMimeSentence s) /\
  forall str, decodeKoi8 s = Ret (false, str) ->
    decodeMimeSentence s = Ret (decodeWords s) /\
    (Forall undecodable (Split s " ") -> decodeMimeSentence s = Ret s).
Proof.
  intros _ Hascii Hlen. pose proof (decodeKoi8_returns s Hascii Hlen) as [[ok str] Hk].
  split; [eexists; exact Hk|]. split.
  - unfold decodeMimeSentence. rewrite Hk. cbn. destruct ok; eexists; reflexivity.
  - intros str' Hf. assert (Hd : decodeMimeSentence s = Ret (decodeWords s)).
    { unfold decodeMimeSentence. rewrite Hf. reflexivity. }
    split; [exact Hd|]. intros Hall. rewrite Hd, (decodeWords_undecodable s Hall).
    reflexivity.
Qed.

(** *** Charsets *)

Lemma decoders_lookup (name : string) : decoders !! name = codecOf name.
Proof.
  unfold decoders, codecOf.
  destruct (String.eqb_spec name "windows-1252") as [->|N1]; [reflexivity|].
  rewrite lookup_insert_ne by congruence.
  destruct (String.eqb_spec name "iso-8859-1") as [->|N2]; [reflexivity|].
  rewrite lookup_insert_ne by congruence.
  destruct (String.eqb_spec name "koi8-r") as [->|N3]; [reflexivity|].
  rewrite lookup_insert_ne by congruence.
  destruct (String.eqb_spec name "windows-1251") as [->|N4]; [reflexivity|].
  rewrite lookup_singleton_ne by congruence. reflexivity.
Qed.

(** The index [split[1]] is in range whenever it is evaluated. *)
Lemma charsetOf_returns (ct : string) : returns (charsetOf ct).
Proof.
  unfold charsetOf, returns. destruct (Contains ct "; charset=") eqn:Hc; [|eauto].
  destruct (Split_index_1 ct "; charset=") as [x Hx]; [discriminate | exact Hc |].
  unfold index_str. rewrite Hx. cbn. eauto.
Qed.

Lemma decodeCharset_codec (content : Reader) (ct name : string) :
  charsetOf ct = Ret name ->
  decodeCharset content ct =
    Ret (match codecOf name with
         | Some cm => rd_charset cm content
         | None => content
         end).
Proof.
  intros Hname. unfold decodeCharset. rewrite Hname, bind_Ret.
  destruct (String.eqb_spec name "default") as [->|Hd]; cbn [negb].
  - reflexivity.
  - rewrite decoders_lookup. destruct (codecOf name); reflexivity.
Qed.

Lemma decodeCharset_returns (content : Reader) (ct : string) :
  exists r, decodeCharset content ct = Ret r.
Proof.
  destruct (charsetOf_returns ct) as [name Hname].
  rewrite (decodeCharset_codec content ct name Hname). eauto.
Qed.

Lemma decodeCharset_no_charset (content : Reader) (ct : string) :
  Contains ct "; charset=" = false -> decodeCharset content ct = Ret content.
Proof.
  intros Hc. rewrite (decodeCharset_codec content ct "default"); [reflexivity|].
  unfold charsetOf. rewrite Hc. reflexivity.
Qed.

(** C7.  [decodeCharset] always returns.  The name it works with is
    ["default"] when the content type has no ["; charset="], and otherwise
    what follows the first separator, trimmed and in lower case; when that
    name is one of the four supported ones the reader transcodes with that
    code page, which yields the transcoded bytes and never an error, and
    for every other name the reader is returned as it was given. *)
Theorem decodeCharset_total (content : Reader) (ct : string) :
  exists name,
    charsetOf ct = Ret name /\
    (Contains ct "; charset=" = false -> name = "default") /\
    (Contains ct "; charset=" = true ->
       exists x, nth_error (Split ct "; charset=") 1 = Some x /\
                 name = ToLower (Trim x quotes_and_blanks)) /\
    decodeCharset content ct =
      Ret (match codecOf name with
           | Some cm => rd_charset cm content
           | None => content
           end) /\
    (forall cm b st, ReadAll (rd_charset cm (rd_bytes b)) st = (transcode cm b, None, st)).
Proof.
  destruct (charsetOf_returns ct) as [name Hname]. exists name.
  split; [exact Hname|]. repeat split.
  - intros Hc. unfold charsetOf in Hname. rewrite Hc in Hname. congruence.
  - intros Hc. unfold charsetOf in Hname. rewrite Hc in Hname.
    destruct (Split_index_1 ct "; charset=") as [x Hx]; [discriminate | exact Hc |].
    exists x. split; [exact Hx|]. unfold index_str in Hname. rewrite Hx in Hname.
    cbn in Hname. congruence.
  - apply decodeCharset_codec, Hname.
Qed.

(** *** Transfer encodings *)

(** An error that comes out of a read was made outside the package. *)
Lemma ReadAll_foreign (r : Reader) (st : Stream) (x : string) (y : error) (z : Stream) :
  ReadAll r st = (x, Some y, z) -> exists l, y = Foreign l.
Proof.
  revert x y z. induction r as [|b|cm r IH]; intros x y z; cbn [ReadAll].
  - destruct (broken st); cbn; intros Heq; inversion Heq; eauto.
  - intros Heq; inversion Heq.
  - destruct (ReadAll r st) as [[b e] st'] eqn:Hr. intros Heq; inversion Heq; subst.
    eapply IH. reflexivity.
Qed.

Lemma ReadAll_decoded_foreign (decode : string -> string + liberror) (content : Reader)
    (st : Stream) (b : string) (e : error) (st' : Stream) :
  ReadAll_decoded decode content st = (b, Some e, st') -> exists l, e = Foreign l.
Proof.
  unfold ReadAll_decoded. destruct (ReadAll content st) as [[raw [e0|]] st0] eqn:Hr.
  - intros Heq. inversion Heq; subst. eapply ReadAll_foreign. exact Hr.
  - intros Heq. destruct (decode raw) as [x|l]; inversion Heq; subst. eauto.
Qed.

Lemma decodeContent_unknown (content : Reader) (encoding ct : string) (st : Stream) :
  recognized encoding = false ->
  decodeContent content encoding ct st = Ret (inr (ErrUnknownEncoding encoding), st).
Proof.
  unfold recognized, recognizedEncodings, decodeContent. cbn [existsb]. cbv zeta.
  intros Hr.
  destruct (String.eqb (ToLower encoding) "base64"); [discriminate|].
  destruct (String.eqb (ToLower encoding) "quoted-printable"); [discriminate|].
  destruct (String.eqb (ToLower encoding) "7bit"); [discriminate|].
  destruct (String.eqb (ToLower encoding) "8bit"); [discriminate|].
  destruct (String.eqb (ToLower encoding) EmptyString); [discriminate|].
  reflexivity.
Qed.

Lemma decodeContent_recognized (content : Reader) (encoding ct : string) (st : Stream) :
  recognized encoding = true ->
  exists st',
    (exists r, decodeContent content encoding ct st = Ret (inl r, st')) \/
    (exists l, decodeContent content encoding ct st = Ret (inr (Foreign l), st')).
Proof.
  unfold recognized, recognizedEncodings, decodeContent. cbn [existsb]. cbv zeta.
  intros Hr.
  destruct (String.eqb (ToLower encoding) "base64").
  { destruct (ReadAll_decoded base64_NewDecoder content st) as [[b [e|]] st'] eqn:Hd.
    - destruct (ReadAll_decoded_foreign _ _ _ _ _ _ Hd) as [l ->]. eauto.
    - destruct (decodeCharset_returns (rd_bytes b) ct) as [r ->]. cbn. eauto. }
  destruct (String.eqb (ToLower encoding) "quoted-printable").
  { destruct (String.eqb (ToLower encoding) "7bit" || String.eqb (ToLower encoding) "8bit").
    - destruct (ReadAll content st) as [[b [e|]] st'] eqn:Hd.
      + destruct (ReadAll_foreign _ _ _ _ _ Hd) as [l ->]. eauto.
      + destruct (decodeCharset_returns (rd_bytes b) ct) as [r ->]. cbn. eauto.
    - destruct (ReadAll_decoded quotedprintable_NewReader content st) as [[b [e|]] st'] eqn:Hd.
      + destruct (ReadAll_decoded_foreign _ _ _ _ _ _ Hd) as [l ->]. eauto.
      + destruct (decodeCharset_returns (rd_bytes b) ct) as [r ->]. cbn. eauto. }
  destruct (String.eqb (ToLower encoding) "7bit" || String.eqb (ToLower encoding) "8bit") eqn:H78.
  { destruct (ReadAll content st) as [[b [e|]] st'] eqn:Hd.
    - destruct (ReadAll_foreign _ _ _ _ _ Hd) as [l ->]. eauto.
    - destruct (decodeCharset_returns (rd_bytes b) ct) as [r ->]. cbn. eauto. }
  apply orb_false_iff in H78 as [H7 H8]. rewrite H7, H8 in Hr.
  destruct (String.eqb (ToLower encoding) EmptyString); [|discriminate].
  destruct (decodeCharset_returns content ct) as [r ->]. cbn. eauto.
Qed.

(** What the recognized encodings do to the bytes, for a content type that
    names no charset. *)
Lemma decodeContent_passes (content : Reader) (encoding ct : string)
    (st st1 : Stream) (raw : string) :
  ReadAll content st = (raw, None, st1) ->
  Contains ct "; charset=" = false ->
  (In (ToLower encoding) ["7bit"; "8bit"; EmptyString] ->
     exists r st', decodeContent content encoding ct st = Ret (inl r, st') /\
                   fst (fst (ReadAll r st')) = raw) /\
  (forall b, ToLower encoding = "base64" -> base64_NewDecoder raw = inl b ->
     exists r st', decodeContent content encoding ct st = Ret (inl r, st') /\
                   fst (fst (ReadAll r st')) = b) /\
  (forall b, ToLower encoding = "quoted-printable" ->
     quotedprintable_NewReader raw = inl b ->
     exists r st', decodeContent content encoding ct st = Ret (inl r, st') /\
                   fst (fst (ReadAll r st')) = b).
Proof.
  intros Hr Hc. unfold decodeContent, ReadAll_decoded. cbv zeta. rewrite Hr.
  repeat split.
  - intros [He|[He|[He|[]]]]; rewrite <- He; cbn [String.eqb Ascii.eqb Bool.eqb orb];
      rewrite decodeCharset_no_charset by exact Hc; cbn.
    + exists (rd_bytes raw), st1. auto.
    + exists (rd_bytes raw), st1. auto.
    + exists content, st. rewrite Hr. auto.
  - intros b He Hb. rewrite He, Hb. cbn [String.eqb Ascii.eqb Bool.eqb].
    rewrite decodeCharset_no_charset by exact Hc. cbn. exists (rd_bytes b), st1. auto.
  - intros b He Hb. rewrite He, Hb. cbn [String.eqb Ascii.eqb Bool.eqb orb].
    rewrite decodeCharset_no_charset by exact Hc. cbn. exists (rd_bytes b), st1. auto.
Qed.

(** C8.  The dispatch is on the lower-cased encoding.  An encoding that is
    none of base64, quoted-printable, 7bit, 8bit and the empty string gives
    the unknown-encoding error and leaves the reader unread; for these five
    the function returns a reader or an error made by the read or by the
    decoder, so the unknown-encoding error arises exactly for the others.
    With no charset named, 7bit, 8bit and the empty encoding hand the bytes
    on as they are, base64 and quoted-printable hand on what the decoder
    makes of them. *)
Theorem decodeContent_dispatch (content : Reader) (encoding ct : string) (st : Stream) :
  (recognized encoding = false ->
     decodeContent content encoding ct st = Ret (inr (ErrUnknownEncoding encoding), st)) /\
  (recognized encoding = true ->
     exists st',
       (exists r, decodeContent content encoding ct st = Ret (inl r, st')) \/
       (exists l, decodeContent content encoding ct st = Ret (inr (Foreign l), st'))) /\
  ((exists enc st',
      decodeContent content encoding ct st = Ret (inr (ErrUnknownEncoding enc), st'))
   <-> recognized encoding = false) /\
  (forall raw st1,
     ReadAll content st = (raw, None, st1) ->
     Contains ct "; charset=" = false ->
     (In (ToLower encoding) ["7bit"; "8bit"; EmptyString] ->
        exists r st', decodeContent content encoding ct st = Ret (inl r, st') /\
                      fst (fst (ReadAll r st')) = raw) /\
     (forall b, ToLower encoding = "base64" -> base64_NewDecoder raw = inl b ->
        exists r st', decodeContent content encoding ct st = Ret (inl r, st') /\
                      fst (fst (ReadAll r st')) = b) /\
     (forall b, ToLower encoding = "quoted-printable" ->
        quotedprintable_NewReader raw = inl b ->
        exists r st', decodeContent content encoding ct st = Ret (inl r, st') /\
                      fst (fst (ReadAll r st')) = b)).
Proof.
  split; [apply decodeContent_unknown|].
  split; [apply decodeContent_recognized|].
  split.
  - split.
    + intros (enc & st' & Heq). destruct (recognized encoding) eqn:Hr; [|reflexivity].
      destruct (decodeContent_recognized content encoding ct st Hr)
        as (st'' & [[r Hd] | [l Hd]]); congruence.
    + intros Hr. exists encoding, st. apply decodeContent_unknown, Hr.
  - intros raw st1. apply decodeContent_passes.
Qed.

(** *** The header field parser *)

Lemma parseTime_loop_err (fs : list string) (s : string) (t : Time) (hp : headerParser) :
  fs <> [] ->
  (hp_err (snd (parseTime_loop fs s t hp)) <> None <->
   forall f, In f fs -> exists e, time_Parse f s = inr e).
Proof.
  revert t hp. induction fs as [|f fs IH]; intros t hp Hne; [congruence|].
  cbn [parseTime_loop]. destruct (time_Parse f s) as [t'|e] eqn:Hf.
  - cbn. split; [congruence|]. intros Hall. destruct (Hall f (or_introl eq_refl)) as [e He].
    congruence.
  - destruct fs as [|g fs].
    + cbn. split; [|congruence]. intros _ f' [<-|[]]. eauto.
    + rewrite IH by congruence. split.
      * intros Hall f' [<-|Hin]; [eauto | apply Hall, Hin].
      * intros Hall f' Hin. apply Hall. right. exact Hin.
Qed.

Lemma decodeHeaderMime_err (header parsed : MIMEHeader) (err : option error) :
  decodeHeaderMime header = Ret (parsed, err) -> err = None.
Proof.
  unfold decodeHeaderMime. intros Heq. apply bind_inv in Heq as (l & _ & Heq).
  congruence.
Qed.

(** The parser that [createEmailFromHeader] holds is never written to: the
    error it returns is nil whenever it returns. *)
Lemma createEmailFromHeader_err_nil (header : MIMEHeader) (email : Email)
    (err : option error) :
  createEmailFromHeader header = Ret (email, err) -> err = None.
Proof.
  unfold createEmailFromHeader. intros Heq.
  apply bind_inv in Heq as (subject & _ & Heq). cbn [hp_err] in Heq.
  apply bind_inv in Heq as ([parsed e] & Hd & Heq).
  apply decodeHeaderMime_err in Hd. congruence.
Qed.

Lemma createEmailFromHeader_fresh (header : MIMEHeader) (email : Email)
    (err : option error) :
  createEmailFromHeader header = Ret (email, err) ->
  Content email = None /\ TextBody email = EmptyString /\ HTMLBody email = EmptyString /\
  Attachments email = [] /\ EmbeddedFiles email = [] /\
  Date email
    = fst (parseTime (mkHeaderParser header None) (Header_Get header "Date")) /\
  ResentDate email
    = fst (parseTime (mkHeaderParser header None) (Header_Get header "Resent-Date")).
Proof.
  unfold createEmailFromHeader. intros Heq.
  apply bind_inv in Heq as (subject & _ & Heq). cbn [hp_err] in Heq.
  apply bind_inv in Heq as ([parsed e] & Hd & Heq).
  inversion Heq; subst. cbn. auto 10.
Qed.

Lemma parseTime_empty (hp : headerParser) : parseTime hp EmptyString = (zeroTime, hp).
Proof. unfold parseTime. cbn [String.eqb]. rewrite orb_true_r. reflexivity. Qed.

(** C10.  On the empty string [parseTime] gives the zero time and leaves
    the error slot of its parser as it found it; there are four formats,
    and with an empty slot the slot is set on return exactly when the
    string is not empty and [time.Parse] rejects it under each of them.
    The header decode returns no error, and a header block without a
    [Date] (or [Resent-Date]) field gives an [Email] with the zero time in
    that place. *)
Theorem parseTime_absent_date (header : MIMEHeader) (slot : option error) (s : string) :
  parseTime (mkHeaderParser header slot) EmptyString
    = (zeroTime, mkHeaderParser header slot) /\
  List.length formats = 4%nat /\
  (hp_err (snd (parseTime (mkHeaderParser header None) s)) <> None <->
   s <> EmptyString /\ forall f, In f formats -> exists e, time_Parse f s = inr e) /\
  (forall email err,
     createEmailFromHeader header = Ret (email, err) ->
     err = None /\
     (Header_Get header "Date" = EmptyString -> Date email = zeroTime) /\
     (Header_Get header "Resent-Date" = EmptyString -> ResentDate email = zeroTime)).
Proof.
  split; [apply parseTime_empty|]. split; [reflexivity|]. split.
  - unfold parseTime. cbn [hp_err].
    rewrite bool_decide_eq_false_2 by (intros Hn; apply Hn; reflexivity).
    cbn [orb]. destruct (String.eqb_spec s EmptyString) as [->|Hs].
    + cbn. split; [congruence | intros [Hn _]; congruence].
    + rewrite parseTime_loop_err by discriminate. split; [auto | intros [_ Hall]; exact Hall].
  - intros email err Hc.
    destruct (createEmailFromHeader_fresh _ _ _ Hc) as (_ & _ & _ & _ & _ & -> & ->).
    split; [eapply createEmailFromHeader_err_nil, Hc|].
    split; intros ->; rewrite parseTime_empty; reflexivity.
Qed.

(** *** [ParseEmail] *)

(** C9.  When [ParseEmail] succeeds, [Content] is set exactly when the
    media type of the message is none of multipart/mixed,
    multipart/alternative, multipart/related, text/plain and text/html, and
    then both bodies, the attachments and the embedded files are empty. *)
Theorem ParseEmail_content_invariant (clock : nat -> Z) (r : string) (email : Email) :
  ParseEmail clock r = Ret (Some email, None) ->
  exists header body contentType params,
    ReadMessage r = inl (header, body) /\
    parseContentType (Header_Get header "Content-Type") = Ret (inl (contentType, params)) /\
    (Content email <> None <-> isTopLevelKind contentType = false) /\
    (Content email <> None ->
       TextBody email = EmptyString /\ HTMLBody email = EmptyString /\
       Attachments email = [] /\ EmbeddedFiles email = []).
Proof.
  unfold ParseEmail. intros Heq.
  destruct (ReadMessage r) as [[header body]|e]; [|discriminate].
  apply bind_inv in Heq as ([email0 err0] & Hc & Heq).
  pose proof (createEmailFromHeader_fresh _ _ _ Hc) as (F1 & F2 & F3 & F4 & F5 & _ & _).
  destruct err0; [discriminate|].
  apply bind_inv in Heq as (parsed & Hp & Heq).
  destruct parsed as [[contentType params]|e]; [|discriminate].
  exists header, body, contentType, params.
  split; [reflexivity|]. split; [exact Hp|].
  unfold isTopLevelKind, topLevelKinds. cbn [existsb].
  destruct (String.eqb contentType contentTypeMultipartMixed).
  { apply bind_inv in Heq as ([[[[tb hb] ats] efs] err] & _ & Heq).
    inversion Heq; subst. cbn. rewrite F1. split; [split; congruence | congruence]. }
  destruct (String.eqb contentType contentTypeMultipartAlternative).
  { apply bind_inv in Heq as ([[[tb hb] efs] err] & _ & Heq).
    inversion Heq; subst. cbn. rewrite F1. split; [split; congruence | congruence]. }
  destruct (String.eqb contentType contentTypeMultipartRelated).
  { apply bind_inv in Heq as ([[[tb hb] efs] err] & _ & Heq).
    inversion Heq; subst. cbn. rewrite F1. split; [split; congruence | congruence]. }
  destruct (String.eqb contentType contentTypeTextPlain).
  { apply bind_inv in Heq as ([newPart st] & _ & Heq).
    destruct newPart as [newPart|e]; [|discriminate].
    destruct (ReadAll newPart st) as [[message e] st'].
    inversion Heq; subst. cbn. rewrite F1. split; [split; congruence | congruence]. }
  destruct (String.eqb contentType contentTypeTextHtml).
  { apply bind_inv in Heq as ([newPart st] & _ & Heq).
    destruct newPart as [newPart|e]; [|discriminate].
    destruct (ReadAll newPart st) as [[message [e|]] st']; [discriminate|].
    inversion Heq; subst. cbn. rewrite F1. split; [split; congruence | congruence]. }
  apply bind_inv in Heq as ([content st] & _ & Heq).
  destruct content as [content|e]; [|discriminate].
  inversion Heq; subst. cbn. rewrite F2, F3, F4, F5.
  split; [split; [reflexivity | congruence] | auto].
Qed.

End Properties.

(** ** The parser on concrete messages

    The lemmas below run the parser with the library values of
    [go_values]. *)

Import strings.



(** C4, at a value whose encoding letter is neither B nor Q. *)
Lemma decodeKoi8_fallback_witness :
  HasPrefix (ToLower "=?koi8-r?X?abcd?=") "=?koi8-r" = true /\
  isASCII (take prefixLen "=?koi8-r?X?abcd?=") = true /\
  (13 <= String.length "=?koi8-r?X?abcd?=")%nat /\
  decodeMimeSentence "=?koi8-r?X?abcd?=" = Ret "=?koi8-r?X?abcd?=".
Proof.
  split; [reflexivity|]. split; [reflexivity|]. split; [cbn; lia|].
  refine (proj2 (proj2 (proj2 (decodeKoi8_fallback "=?koi8-r?X?abcd?=" eq_refl eq_refl _))
            EmptyString eq_refl) _).
  - cbn; lia.
  - repeat constructor. eexists. reflexivity.
Defined.

(** C4 as stated fails: the bare marker makes the fast path panic, so does
    a longer word whose lower-cased prefix is shorter than the prefix, and
    a value on which the fast path fails but whose second word decodes is
    not returned unchanged. *)
Lemma koi8_fast_path_counterexample :
  decodeMimeSentence "=?koi8-r" = Panic "slice bounds out of range" /\
  (String.length kelvin_word = 19%nat /\
   HasPrefix (ToLower kelvin_word) "=?koi8-r" = true /\
   decodeMimeSentence kelvin_word = Panic "index out of range") /\
  HasPrefix (ToLower koi8_then_utf8) "=?koi8-r" = true /\
  decodeKoi8 koi8_then_utf8 = Ret (false, EmptyString) /\
  decodeMimeSentence koi8_then_utf8 = Ret "=?koi8-r?X?abcd?=hi" /\
  decodeMimeSentence koi8_then_utf8 <> Ret koi8_then_utf8.
Proof.
  split; [reflexivity|]. split; [repeat split; reflexivity|].
  split; [reflexivity|]. split; [reflexivity|].
  split; [reflexivity | discriminate].
Qed.

(** The fast path panics on every marker-prefixed value of fewer than
    thirteen bytes; here at twelve. *)
Lemma decodeKoi8_short_panics :
  decodeKoi8 "=?koi8-r?B?x" = Panic "slice bounds out of range".
Proof. reflexivity. Qed.

(** C7, at a content type that names KOI8-R in upper case. *)
Lemma decodeCharset_total_witness :
  Contains "text/plain; charset=KOI8-R" "; charset=" = true /\
  decodeCharset (rd_bytes "hi") "text/plain; charset=KOI8-R"
    = Ret (rd_charset KOI8R (rd_bytes "hi")).
Proof.
  split; [reflexivity|].
  destruct (decodeCharset_total (rd_bytes "hi") "text/plain; charset=KOI8-R")
    as (name & Hn & _ & _ & Hd & _).
  vm_compute in Hn. injection Hn as <-. exact Hd.
Defined.

(** C8, at an unknown encoding and at base64 in mixed case. *)
Lemma decodeContent_dispatch_witness :
  recognized "binary" = false /\
  decodeContent rd_source "binary" "text/plain" (mkStream "aGk=" None)
    = Ret (inr (ErrUnknownEncoding "binary"), mkStream "aGk=" None) /\
  recognized "Base64" = true /\
  exists r st',
    decodeContent rd_source "Base64" "text/plain" (mkStream "aGk=" None) = Ret (inl r, st') /\
    fst (fst (ReadAll r st')) = "hi".
Proof.
  split; [reflexivity|]. split.
  - apply (proj1 (decodeContent_dispatch rd_source "binary" "text/plain"
                    (mkStream "aGk=" None))).
    reflexivity.
  - split; [reflexivity|].
    destruct (decodeContent_dispatch rd_source "Base64" "text/plain" (mkStream "aGk=" None))
      as (_ & _ & _ & Hpass).
    destruct (Hpass "aGk=" (mkStream EmptyString None) eq_refl eq_refl) as (_ & Hb64 & _).
    exact (Hb64 "hi" eq_refl eq_refl).
Defined.

(** C9, at a message of type application/pdf. *)
Lemma ParseEmail_content_invariant_witness :
  match ParseEmail (fun _ => 0%Z) pdf_message with
  | Ret (Some email, None) =>
      Content email <> None /\
      TextBody email = EmptyString /\ HTMLBody email = EmptyString /\
      Attachments email = [] /\ EmbeddedFiles email = []
  | _ => False
  end.
Proof.
  destruct (ParseEmail (fun _ => 0%Z) pdf_message) as [[[email|] [e|]]|msg] eqn:Heq;
    try (vm_compute in Heq; discriminate Heq).
  destruct (ParseEmail_content_invariant _ _ _ Heq)
    as (header & body & ct & params & _ & _ & _ & Hempty).
  assert (Hc : Content email <> None).
  { vm_compute in Heq. injection Heq as <-. discriminate. }
  split; [exact Hc | exact (Hempty Hc)].
Defined.

(** C10, at a header without fields and at a date no format accepts. *)
Lemma parseTime_absent_date_witness :
  parseTime (mkHeaderParser ∅ None) EmptyString = (zeroTime, mkHeaderParser ∅ None) /\
  hp_err (snd (parseTime (mkHeaderParser ∅ None) "yesterday")) <> None.
Proof.
  destruct (parseTime_absent_date ∅ None "yesterday") as (H0 & _ & Hiff & _).
  split; [exact H0|]. apply Hiff. split; [discriminate|].
  intros f Hin. cbn in Hin.
  destruct Hin as [<-|[<-|[<-|[<-|[]]]]]; eexists; reflexivity.
Defined.

(** C1.  A [From] field that does not parse and a valid [To] field: the
    header decode returns no error and goes on to fill in [To]. *)
Theorem createEmailFromHeader_drops_error :
  (exists e, ParseAddressList "foo" = inr e) /\
  outcome <$> createEmailFromHeader bad_from = Ret (None, [], [mkAddress "" "a@b.c"]).
Proof. split; [eexists; reflexivity | vm_compute; reflexivity]. Qed.

(** C2.  In a mixed body, the text ["A"] read before a nested alternative
    is replaced by the alternative's ["B"]; the Related walker, which
    appends, gives ["AB"] on the same parts. *)
Theorem parseMultipartMixed_overwrites :
  parseMultipartMixed (fun _ => 0%Z) mixed_body "outer"
    = Ret ("B", EmptyString, [], [], None) /\
  parseMultipartRelated mixed_body "outer" = Ret ("AB", EmptyString, [], None).
Proof. split; vm_compute; reflexivity. Qed.

(** C3.  An application/octet-stream part with body ["aGk="]: with base64
    or 7bit as transfer encoding the part has been read to its end before
    the raw read, and the attachment's data is empty; only without a
    transfer encoding is the data the raw body. *)
Theorem decodeAttachment_octet_stream_consumed :
  payload <$> decodeAttachment 0 (octet ["base64"]) (open (snd (octet ["base64"])))
    = Ret (Some (rd_bytes EmptyString), None) /\
  payload <$> decodeAttachment 0 (octet ["7bit"]) (open (snd (octet ["7bit"])))
    = Ret (Some (rd_bytes EmptyString), None) /\
  payload <$> decodeAttachment 0 (octet []) (open (snd (octet [])))
    = Ret (Some (rd_bytes "aGk="), None).
Proof. repeat split; vm_compute; reflexivity. Qed.

(** C5.  One text/plain leaf in base64: the Alternative walker appends the
    decoded text, the Related walker the bytes as they stand. *)
Theorem related_reads_undecoded :
  parseMultipartAlternative (multipart "b" [base64_text]) "b"
    = Ret ("hi", EmptyString, [], None) /\
  parseMultipartRelated (multipart "b" [base64_text]) "b"
    = Ret ("aGk=", EmptyString, [], None).
Proof. split; vm_compute; reflexivity. Qed.

(** * Further properties of the parser *)

(** ** Trimming and splitting *)

Section TrimFacts.

Import strings.

Variable f : ascii -> bool.

Lemma TrimLeftFunc_first (s : string) :
  from_option f false (first_byte (TrimLeftFunc f s)) = false.
Proof.
  induction s as [|c s IH]; cbn; [reflexivity|].
  destruct (f c) eqn:Hc; [exact IH | cbn; exact Hc].
Qed.

Lemma TrimRightFunc_last (s : string) :
  from_option f false (last_byte (TrimRightFunc f s)) = false.
Proof.
  induction s as [|c s IH]; cbn; [reflexivity|].
  destruct (TrimRightFunc f s) as [|d t] eqn:Ht.
  - destruct (f c) eqn:Hc; cbn; [reflexivity | exact Hc].
  - cbn in IH |- *. exact IH.
Qed.

Lemma TrimRightFunc_first (s : string) :
  from_option f false (first_byte s) = false ->
  from_option f false (first_byte (TrimRightFunc f s)) = false.
Proof.
  destruct s as [|c s]; cbn; [reflexivity|]. intros Hc.
  destruct (TrimRightFunc f s); [rewrite Hc|]; cbn; exact Hc.
Qed.

Lemma TrimLeftFunc_fixed (s : string) :
  from_option f false (first_byte s) = false -> TrimLeftFunc f s = s.
Proof. destruct s as [|c s]; cbn; [reflexivity|]. intros ->. reflexivity. Qed.

Lemma TrimRightFunc_fixed (s : string) :
  from_option f false (last_byte s) = false -> TrimRightFunc f s = s.
Proof.
  induction s as [|c s IH]; cbn; [reflexivity|].
  destruct s as [|d s].
  - cbn. intros ->. reflexivity.
  - intros Hl. rewrite (IH Hl). reflexivity.
Qed.

Lemma TrimLeftFunc_all (s : string) :
  all_bytes f s = true -> TrimLeftFunc f s = EmptyString.
Proof.
  induction s as [|c s IH]; cbn; [reflexivity|].
  intros [-> Hs]%andb_prop. exact (IH Hs).
Qed.

Lemma TrimRightFunc_all (s : string) :
  all_bytes f s = true -> TrimRightFunc f s = EmptyString.
Proof.
  induction s as [|c s IH]; cbn; [reflexivity|].
  intros [Hc Hs]%andb_prop. rewrite (IH Hs), Hc. reflexivity.
Qed.

Lemma TrimRightFunc_app_all (a b : string) :
  all_bytes f b = true -> TrimRightFunc f (a +:+ b) = TrimRightFunc f a.
Proof.
  intros Hb. induction a as [|c a IH].
  - rewrite app_empty_l. cbn. apply TrimRightFunc_all, Hb.
  - rewrite app_cons. cbn. rewrite IH. reflexivity.
Qed.

End TrimFacts.

Section SplitFacts.

Import strings.

(** What [Trim] returns has no byte of the cut set at either end, and a
    string of that form is returned as it is. *)
Lemma Trim_edges (s cutset : string) :
  edges_free (in_cutset cutset) (Trim s cutset) = true.
Proof.
  unfold edges_free, Trim, in_cutset.
  rewrite TrimRightFunc_first by apply TrimLeftFunc_first.
  rewrite TrimRightFunc_last. reflexivity.
Qed.


Lemma Trim_all (s cutset : string) :
  all_bytes (in_cutset cutset) s = true -> Trim s cutset = EmptyString.
Proof.
  intros Hs. unfold Trim.
  rewrite (TrimLeftFunc_all (fun c => mem_byte c cutset) s Hs). reflexivity.
Qed.

Lemma Trim_kept_first (c : ascii) (s cutset : string) :
  mem_byte c cutset = false -> Trim (String c s) cutset <> EmptyString.
Proof.
  intros Hc. unfold Trim. cbn [TrimLeftFunc]. rewrite Hc. cbn [TrimRightFunc].
  destruct (TrimRightFunc _ s); [rewrite Hc|]; discriminate.
Qed.

Lemma TrimSpace_edges (s : string) : edges_free is_space (TrimSpace s) = true.
Proof.
  unfold edges_free, TrimSpace.
  rewrite TrimRightFunc_first by apply TrimLeftFunc_first.
  rewrite TrimRightFunc_last. reflexivity.
Qed.

Lemma TrimSpace_fixed (p : string) :
  edges_free is_space p = true -> TrimSpace p = p.
Proof.
  unfold edges_free. intros [H1 H2]%andb_prop. apply negb_true_iff in H1, H2.
  unfold TrimSpace. rewrite TrimLeftFunc_fixed by exact H1. apply TrimRightFunc_fixed, H2.
Qed.

Lemma TrimSpace_after_blank (p : string) :
  edges_free is_space p = true -> TrimSpace (" " +:+ p) = p.
Proof.
  intros Hp. unfold TrimSpace. rewrite app_cons, app_empty_l. cbn [TrimLeftFunc].
  change (is_space " ") with true. cbn match. exact (TrimSpace_fixed p Hp).
Qed.

Lemma first_byte_app (a b : string) :
  a <> EmptyString -> first_byte (a +:+ b) = first_byte a.
Proof. destruct a; [congruence | reflexivity]. Qed.

Lemma all_bytes_app (f : ascii -> bool) (a b : string) :
  all_bytes f (a +:+ b) = all_bytes f a && all_bytes f b.
Proof.
  induction a as [|c a IH]; [reflexivity|].
  rewrite app_cons. cbn [all_bytes]. rewrite IH, andb_assoc. reflexivity.
Qed.

Lemma all_bytes_TrimLeftFunc (g f : ascii -> bool) (s : string) :
  all_bytes g s = true -> all_bytes g (TrimLeftFunc f s) = true.
Proof.
  induction s as [|c s IH]; cbn; [reflexivity|].
  intros Hs. destruct (f c); [|exact Hs].
  apply andb_prop in Hs as [_ Hs]. exact (IH Hs).
Qed.

Lemma all_bytes_TrimRightFunc (g f : ascii -> bool) (s : string) :
  all_bytes g s = true -> all_bytes g (TrimRightFunc f s) = true.
Proof.
  induction s as [|c s IH]; cbn; [reflexivity|].
  intros [Hc Hs]%andb_prop. specialize (IH Hs).
  destruct (TrimRightFunc f s) as [|e t].
  - destruct (f c); cbn; [reflexivity | rewrite Hc; reflexivity].
  - cbn [all_bytes] in IH |- *. rewrite Hc. exact IH.
Qed.

Lemma all_bytes_Trim (g : ascii -> bool) (s cutset : string) :
  all_bytes g s = true -> all_bytes g (Trim s cutset) = true.
Proof. intros Hs. apply all_bytes_TrimRightFunc, all_bytes_TrimLeftFunc, Hs. Qed.

Lemma all_bytes_TrimSpace (g : ascii -> bool) (s : string) :
  all_bytes g s = true -> all_bytes g (TrimSpace s) = true.
Proof. intros Hs. apply all_bytes_TrimRightFunc, all_bytes_TrimLeftFunc, Hs. Qed.

Variable d : ascii.

Let sep : string := String d EmptyString.

Lemma HasPrefix_byte (c : ascii) (s : string) :
  HasPrefix (String c s) sep = Ascii.eqb c d.
Proof. cbn. destruct (Ascii.eqb c d); reflexivity. Qed.

Lemma Contains_byte (s : string) :
  Contains s sep = negb (all_bytes (other_than d) s).
Proof.
  induction s as [|c s IH]; [reflexivity|].
  cbn [Contains all_bytes]. rewrite HasPrefix_byte, IH. unfold other_than.
  destruct (Ascii.eqb c d); reflexivity.
Qed.

Lemma split_byte_free (cur a : string) :
  all_bytes (other_than d) a = true -> split_from sep 0 cur a = [cur +:+ a].
Proof.
  revert cur. induction a as [|c a IH]; intros cur Ha.
  - cbn. rewrite app_empty_r. reflexivity.
  - cbn [all_bytes] in Ha. apply andb_prop in Ha as [Hc Ha].
    cbn [split_from]. rewrite HasPrefix_byte.
    unfold other_than in Hc. apply negb_true_iff in Hc. rewrite Hc.
    rewrite (IH _ Ha), app_assoc_str. reflexivity.
Qed.

Lemma split_byte_token (cur a b : string) :
  all_bytes (other_than d) a = true ->
  split_from sep 0 cur (a +:+ sep +:+ b) = (cur +:+ a) :: split_from sep 0 EmptyString b.
Proof.
  revert cur. induction a as [|c a IH]; intros cur Ha.
  - rewrite app_empty_l, app_empty_r. unfold sep at 2. rewrite app_cons, app_empty_l.
    cbn [split_from]. rewrite HasPrefix_byte, Ascii.eqb_refl. reflexivity.
  - cbn [all_bytes] in Ha. apply andb_prop in Ha as [Hc Ha].
    rewrite app_cons. cbn [split_from]. rewrite HasPrefix_byte.
    unfold other_than in Hc. apply negb_true_iff in Hc. rewrite Hc.
    rewrite (IH _ Ha), app_assoc_str. reflexivity.
Qed.

Lemma split_byte_last (cur a p : string) :
  all_bytes (other_than d) p = true ->
  split_from sep 0 cur (a +:+ sep +:+ p) = split_from sep 0 cur a ++ [p].
Proof.
  intros Hp. revert cur. induction a as [|c a IH]; intros cur.
  - rewrite app_empty_l. unfold sep at 2. rewrite app_cons, app_empty_l.
    cbn [split_from]. rewrite HasPrefix_byte, Ascii.eqb_refl. cbn [String.length Nat.sub].
    rewrite split_byte_free by exact Hp. reflexivity.
  - rewrite app_cons. cbn [split_from]. rewrite !HasPrefix_byte.
    destruct (Ascii.eqb c d); cbn [String.length Nat.sub]; rewrite IH; reflexivity.
Qed.

(** No piece that [Split] cuts at a one-byte separator holds the
    separator. *)
Lemma split_byte_pieces (cur s : string) :
  all_bytes (other_than d) cur = true ->
  Forall (fun p => all_bytes (other_than d) p = true) (split_from sep 0 cur s).
Proof.
  revert cur. induction s as [|c s IH]; intros cur Hcur.
  - cbn. constructor; [exact Hcur | constructor].
  - cbn [split_from]. rewrite HasPrefix_byte. destruct (Ascii.eqb c d) eqn:Hc.
    + constructor; [exact Hcur|]. cbn. apply IH. reflexivity.
    + apply IH. rewrite all_bytes_app, Hcur. cbn. unfold other_than. rewrite Hc. reflexivity.
Qed.

Lemma Split_byte_pieces (s : string) :
  Forall (fun p => all_bytes (other_than d) p = true) (Split s sep).
Proof. apply split_byte_pieces. reflexivity. Qed.


End SplitFacts.

Section SliceFacts.

Import strings.

Lemma index_str_Split_0 (p sep : string) :
  index_str (Split p sep) 0 = Ret (hd EmptyString (Split p sep)).
Proof.
  unfold index_str, Split. pose proof (split_from_nonnil sep 0 EmptyString p) as Hn.
  destruct (split_from sep 0 EmptyString p); [congruence | reflexivity].
Qed.

Lemma length_app_str (a b : string) :
  String.length (a +:+ b) = (String.length a + String.length b)%nat.
Proof.
  induction a as [|c a IH]; [reflexivity|]. rewrite app_cons. cbn. rewrite IH. reflexivity.
Qed.

Lemma take_app_exact (a b : string) : take (String.length a) (a +:+ b) = a.
Proof.
  induction a as [|c a IH]; [destruct b; reflexivity|].
  rewrite app_cons. cbn. rewrite IH. reflexivity.
Qed.

Lemma drop_app_exact (a b : string) : drop (String.length a) (a +:+ b) = b.
Proof. induction a as [|c a IH]; [reflexivity|]. rewrite app_cons. cbn. exact IH. Qed.

Lemma slice_short (s : string) (lo hi : Z) :
  (Z.of_nat (String.length s) < hi)%Z \/ (hi < lo)%Z ->
  slice s lo hi = Panic "slice bounds out of range".
Proof.
  intros Hb. unfold slice.
  destruct (0 <=? lo)%Z; [|reflexivity].
  destruct (lo <=? hi)%Z eqn:H1; cbn [andb].
  - destruct (hi <=? Z.of_nat (String.length s))%Z eqn:H2; [|reflexivity]. lia.
  - reflexivity.
Qed.

Lemma sublist_Forall {A : Type} (P : A -> Prop) (l k : list A) :
  sublist l k -> Forall P k -> Forall P l.
Proof.
  intros Hs. induction Hs as [|x l k _ IH|x l k _ IH]; intros Hk.
  - constructor.
  - inversion Hk; subst. constructor; auto.
  - inversion Hk; subst. auto.
Qed.

Lemma fold_filter_map {A B : Type} (keep : A -> bool) (g : A -> B) (l : list A)
    (acc : list B) :
  fold_left (fun result p => if keep p then result ++ [g p] else result) l acc =
  acc ++ map g (List.filter keep l).
Proof.
  revert acc. induction l as [|a l IH]; intros acc; cbn [fold_left List.filter map].
  - rewrite app_nil_r. reflexivity.
  - rewrite IH. destruct (keep a); [|reflexivity].
    cbn [map]. rewrite <- app_assoc. reflexivity.
Qed.

End SliceFacts.

(** ** Header fields *)

Section FieldFacts.

Context `{GoLib}.

Import strings.

Lemma parseMessageIdList_tokens (hp : headerParser) (s : string) :
  hp_err hp = None ->
  fst (parseMessageIdList hp s) =
  map (fun p => Trim p "<> ")
      (List.filter (fun p => negb (String.eqb (Trim p blanks) EmptyString)) (Split s " ")).
Proof.
  intros He. unfold parseMessageIdList. rewrite He. cbn [fst].
  rewrite (fold_filter_map
             (fun p => negb (String.eqb (Trim p blanks) EmptyString))
             (fun p => fst (parseMessageId hp p))).
  cbn [app]. apply map_ext. intros p. unfold parseMessageId. rewrite He. reflexivity.
Qed.

Lemma Trim_bracketed (id : string) :
  id <> EmptyString -> edges_free (in_cutset "<> ") id = true ->
  Trim ("<" +:+ id +:+ ">") "<> " = id.
Proof.
  intros Hne Hid. unfold Trim. rewrite app_cons, app_empty_l.
  cbn [TrimLeftFunc mem_byte Ascii.eqb Bool.eqb orb].
  unfold edges_free in Hid. apply andb_prop in Hid as [H1 H2].
  apply negb_true_iff in H1, H2.
  rewrite TrimLeftFunc_fixed.
  2:{ rewrite first_byte_app by exact Hne. exact H1. }
  rewrite TrimRightFunc_app_all by reflexivity.
  apply TrimRightFunc_fixed. exact H2.
Qed.

Lemma Trim_bracket_nonblank (id : string) :
  String.eqb (Trim ("<" +:+ id +:+ ">") blanks) EmptyString = false.
Proof.
  apply String.eqb_neq. rewrite app_cons, app_empty_l.
  apply Trim_kept_first. reflexivity.
Qed.

Lemma bracketed_spaceless (id : string) :
  all_bytes (other_than " ") id = true -> spaceless ("<" +:+ id +:+ ">").
Proof.
  intros Hid. unfold spaceless. rewrite (Contains_byte " ").
  rewrite app_cons, app_empty_l. cbn [all_bytes]. rewrite all_bytes_app, Hid. reflexivity.
Qed.


(** X2.  Every id that [parseMessageIdList] returns is free of spaces and
    has no angle bracket at either end, whatever the field holds; the
    method never writes to the parser. *)
Theorem parseMessageIdList_bare (hp : headerParser) (s : string) :
  Forall (fun id => bare_id id = true) (fst (parseMessageIdList hp s)) /\
  snd (parseMessageIdList hp s) = hp.
Proof.
  destruct (hp_err hp) as [e|] eqn:He.
  - unfold parseMessageIdList. rewrite He. split; [constructor | reflexivity].
  - split; [|unfold parseMessageIdList; rewrite He; reflexivity].
    rewrite parseMessageIdList_tokens by exact He.
    apply Forall_map, Forall_forall. intros p Hp.
    apply list_elem_of_In, filter_In in Hp as [Hp _]. apply list_elem_of_In in Hp.
    pose proof (Split_byte_pieces " " s) as Hall.
    rewrite Forall_forall in Hall. specialize (Hall p Hp). cbn beta in Hall.
    unfold bare_id. rewrite all_bytes_Trim by exact Hall. apply Trim_edges.
Qed.

(** X3.  Round trip: a list of non-empty ids without spaces and without
    angle brackets or spaces at their ends, written as [<id>] words
    separated by single spaces, is parsed back to the same list, in
    order. *)
Theorem parseMessageIdList_bracketed (hp : headerParser) (ids : list string) :
  hp_err hp = None ->
  Forall (fun id => id <> EmptyString /\ bare_id id = true) ids ->
  parseMessageIdList hp (bracketed ids) = (ids, hp).
Proof.
  intros He Hids.
  rewrite (surjective_pairing (parseMessageIdList hp (bracketed ids))).
  f_equal; [|unfold parseMessageIdList; rewrite He; reflexivity].
  rewrite parseMessageIdList_tokens by exact He. unfold bracketed.
  destruct ids as [|id0 ids0]; [reflexivity|].
  set (ids := id0 :: ids0) in *.
  rewrite Split_Join_tokens.
  - clear -Hids. induction Hids as [|id l [Hne Hb] _ IH]; [reflexivity|].
    cbn [map List.filter]. rewrite Trim_bracket_nonblank. cbn [negb map].
    unfold bare_id in Hb. apply andb_prop in Hb as [_ Hb].
    rewrite (Trim_bracketed id Hne Hb), IH. reflexivity.
  - discriminate.
  - apply Forall_map. eapply Forall_impl; [exact Hids|].
    intros id [_ Hb]. apply bracketed_spaceless.
    unfold bare_id in Hb. apply andb_prop in Hb as [Hb _]. exact Hb.
Qed.

(** X4.  On a field value made of spaces and newlines only, the empty
    value included, [parseAddress] and [parseAddressList] return nothing
    and hand the parser back as it was: a blank address field is not an
    error. *)
Theorem parseAddress_blank (hp : headerParser) (s : string) :
  all_bytes (in_cutset blanks) s = true ->
  parseAddress hp s = (None, hp) /\ parseAddressList hp s = ([], hp).
Proof.
  intros Hs. unfold parseAddress, parseAddressList.
  rewrite (Trim_all s blanks Hs). cbn [String.eqb negb].
  destruct (hp_err hp); split; reflexivity.
Qed.

End FieldFacts.

(** ** [sanitizeContentTypeHeader] and [parseContentType] *)

Section SanitizeFacts.

Context `{GoLib}.

Import strings.

(** The loop of the sanitizer never indexes out of range, and what it
    collects are the segments with the repeated parameters dropped. *)
Lemma sanitize_fold (ps : list string) (seen : gset string) (result : list string) :
  exists seen',
    exec_foldl sanitize_step ps (seen, result) =
    Ret (seen',
         result ++ distinct_keys seen
           (List.filter (fun p => negb (String.eqb p EmptyString)) (map TrimSpace ps))).
Proof.
  revert seen result. induction ps as [|p ps IH]; intros seen result.
  - exists seen. cbn. rewrite app_nil_r. reflexivity.
  - cbn [exec_foldl sanitize_step map List.filter].
    destruct (String.eqb (TrimSpace p) EmptyString) eqn:He; cbn [negb].
    + rewrite bind_Ret. apply IH.
    + cbn [distinct_keys]. unfold hasEq at 1.
      destruct (Contains (TrimSpace p) "=") eqn:Hc.
      * rewrite index_str_Split_0, bind_Ret. fold (paramKey (TrimSpace p)).
        destruct (bool_decide (paramKey (TrimSpace p) ∈ seen)); rewrite bind_Ret.
        -- apply IH.
        -- destruct (IH ({[paramKey (TrimSpace p)]} ∪ seen) (result ++ [TrimSpace p]))
             as [seen' ->].
           exists seen'. rewrite <- app_assoc. reflexivity.
      * rewrite bind_Ret.
        destruct (IH seen (result ++ [TrimSpace p])) as [seen' ->].
        exists seen'. rewrite <- app_assoc. reflexivity.
Qed.

Lemma sanitize_distinct (contentType : string) :
  sanitizeContentTypeHeader contentType =
  Ret (Join (distinct_keys ∅ (segments contentType)) "; ").
Proof.
  unfold sanitizeContentTypeHeader.
  destruct (sanitize_fold (Split contentType ";") ∅ []) as [seen' ->].
  reflexivity.
Qed.

Lemma distinct_keys_sublist (seen : gset string) (ps : list string) :
  sublist (distinct_keys seen ps) ps.
Proof.
  revert seen. induction ps as [|p ps IH]; intros seen; cbn [distinct_keys].
  - constructor.
  - destruct (hasEq p); [destruct (bool_decide _)|].
    + apply sublist_cons, IH.
    + apply sublist_skip, IH.
    + apply sublist_skip, IH.
Qed.

Lemma distinct_keys_fresh (seen : gset string) (ps : list string) (k : string) :
  k ∈ keys_of (distinct_keys seen ps) -> k ∉ seen.
Proof.
  revert seen. induction ps as [|p ps IH]; intros seen; cbn [distinct_keys].
  - intros Hk. inversion Hk.
  - unfold keys_of. destruct (hasEq p) eqn:Hp.
    + destruct (bool_decide (paramKey p ∈ seen)) eqn:Hd.
      * apply IH.
      * cbn [List.filter]. rewrite Hp. cbn [map]. intros Hk.
        apply bool_decide_eq_false in Hd.
        apply elem_of_cons in Hk as [->|Hk]; [exact Hd|].
        apply IH in Hk. intros Hs. apply Hk, elem_of_union. right. exact Hs.
    + cbn [List.filter]. rewrite Hp. apply IH.
Qed.

Lemma distinct_keys_NoDup (seen : gset string) (ps : list string) :
  NoDup (keys_of (distinct_keys seen ps)).
Proof.
  revert seen. induction ps as [|p ps IH]; intros seen; cbn [distinct_keys].
  - constructor.
  - unfold keys_of. destruct (hasEq p) eqn:Hp.
    + destruct (bool_decide (paramKey p ∈ seen)) eqn:Hd; [apply IH|].
      cbn [List.filter]. rewrite Hp. cbn [map]. constructor; [|apply IH].
      intros Hk. apply distinct_keys_fresh in Hk.
      apply Hk, elem_of_union. left. apply elem_of_singleton. reflexivity.
    + cbn [List.filter]. rewrite Hp. apply IH.
Qed.

Lemma distinct_keys_plain (seen : gset string) (ps : list string) (p : string) :
  p ∈ ps -> hasEq p = false -> p ∈ distinct_keys seen ps.
Proof.
  revert seen. induction ps as [|q ps IH]; intros seen Hin Hp; [inversion Hin|].
  cbn [distinct_keys]. apply elem_of_cons in Hin as [<-|Hin].
  - rewrite Hp. left.
  - destruct (hasEq q); [destruct (bool_decide _)|].
    + apply IH; assumption.
    + right. apply IH; assumption.
    + right. apply IH; assumption.
Qed.

Lemma distinct_keys_covers (seen : gset string) (ps : list string) (p : string) :
  p ∈ ps -> hasEq p = true -> paramKey p ∉ seen ->
  paramKey p ∈ keys_of (distinct_keys seen ps).
Proof.
  revert seen. induction ps as [|q ps IH]; intros seen Hin Hp Hs; [inversion Hin|].
  cbn [distinct_keys]. unfold keys_of.
  destruct (hasEq q) eqn:Hq.
  - destruct (bool_decide (paramKey q ∈ seen)) eqn:Hd.
    + apply bool_decide_eq_true in Hd.
      apply elem_of_cons in Hin as [->|Hin]; [contradiction|]. apply IH; assumption.
    + cbn [List.filter]. rewrite Hq. cbn [map].
      apply elem_of_cons in Hin as [->|Hin]; [left|].
      destruct (decide (paramKey p = paramKey q)) as [->|Hne]; [left|].
      right. apply IH; [assumption..|].
      intros [Hk|Hk]%elem_of_union; [|contradiction].
      apply elem_of_singleton in Hk. contradiction.
  - cbn [List.filter]. rewrite Hq.
    apply elem_of_cons in Hin as [->|Hin]; [congruence|]. apply IH; assumption.
Qed.

Lemma distinct_keys_idem (seen : gset string) (ps : list string) :
  distinct_keys seen (distinct_keys seen ps) = distinct_keys seen ps.
Proof.
  revert seen. induction ps as [|p ps IH]; intros seen; cbn [distinct_keys]; [reflexivity|].
  destruct (hasEq p) eqn:Hp.
  - destruct (bool_decide (paramKey p ∈ seen)) eqn:Hd; [apply IH|].
    cbn [distinct_keys]. rewrite Hp, Hd, IH. reflexivity.
  - cbn [distinct_keys]. rewrite Hp, IH. reflexivity.
Qed.

Lemma distinct_keys_all (seen : gset string) (ps : list string) :
  NoDup (keys_of ps) -> (forall k, k ∈ keys_of ps -> k ∉ seen) ->
  distinct_keys seen ps = ps.
Proof.
  revert seen. induction ps as [|p ps IH]; intros seen Hnd Hs; [reflexivity|].
  cbn [distinct_keys]. unfold keys_of in Hnd, Hs. cbn [List.filter] in Hnd, Hs.
  destruct (hasEq p) eqn:Hp.
  - cbn [map] in Hnd, Hs. apply NoDup_cons in Hnd as [Hk Hnd].
    rewrite bool_decide_eq_false_2 by (apply Hs; left).
    f_equal. apply IH; [exact Hnd|].
    intros k Hin [Hk'|Hk']%elem_of_union.
    + apply elem_of_singleton in Hk'. subst k. exact (Hk Hin).
    + apply (Hs k); [right; exact Hin | exact Hk'].
  - f_equal. apply IH; assumption.
Qed.

Lemma distinct_keys_duplicate (seen : gset string) (ps : list string) (q : string) :
  hasEq q = true -> (paramKey q ∈ seen \/ paramKey q ∈ keys_of ps) ->
  distinct_keys seen (ps ++ [q]) = distinct_keys seen ps.
Proof.
  intros Hq. revert seen. induction ps as [|p ps IH]; intros seen Hk.
  - cbn [app distinct_keys]. rewrite Hq.
    destruct Hk as [Hk|Hk]; [|inversion Hk].
    rewrite bool_decide_eq_true_2 by exact Hk. reflexivity.
  - cbn [app distinct_keys]. unfold keys_of in Hk. cbn [List.filter] in Hk.
    destruct (hasEq p) eqn:Hp.
    + cbn [map] in Hk. destruct (bool_decide (paramKey p ∈ seen)) eqn:Hd.
      * apply IH. destruct Hk as [Hk|Hk]; [left; exact Hk|].
        apply elem_of_cons in Hk as [Hk|Hk]; [|right; exact Hk].
        left. rewrite Hk. apply bool_decide_eq_true in Hd. exact Hd.
      * f_equal. apply IH. destruct Hk as [Hk|Hk].
        -- left. apply elem_of_union. right. exact Hk.
        -- apply elem_of_cons in Hk as [Hk|Hk]; [|right; exact Hk].
           left. apply elem_of_union. left. apply elem_of_singleton. exact Hk.
    + f_equal. apply IH. exact Hk.
Qed.

Lemma segment_like_inv (p : string) :
  segment_like p = true ->
  String.eqb p EmptyString = false /\ edges_free is_space p = true /\
  all_bytes (other_than ";") p = true.
Proof.
  unfold segment_like. intros [[H1 H2]%andb_prop H3]%andb_prop.
  apply negb_true_iff in H1. auto.
Qed.

Lemma segments_like (contentType : string) :
  Forall (fun p => segment_like p = true) (segments contentType).
Proof.
  unfold segments. apply Forall_forall. intros p Hp.
  apply list_elem_of_In, filter_In in Hp as [Hp Hne].
  apply in_map_iff in Hp as [q [<- Hq]].
  unfold segment_like. rewrite Hne, TrimSpace_edges. cbn [andb].
  apply all_bytes_TrimSpace.
  pose proof (Split_byte_pieces ";" contentType) as Hall.
  rewrite Forall_forall in Hall. apply Hall, list_elem_of_In, Hq.
Qed.

Lemma split_Join_segments (cur p : string) (ps : list string) :
  Forall (fun p => segment_like p = true) (p :: ps) ->
  split_from ";" 0 cur (Join (p :: ps) "; ") = (cur +:+ p) :: map (fun q => " " +:+ q) ps.
Proof.
  revert cur p. induction ps as [|q ps IH]; intros cur p Hall.
  - inversion Hall as [|? ? (_ & _ & Hp)%segment_like_inv _]; subst. cbn [Join map].
    apply (split_byte_free ";"), Hp.
  - inversion Hall as [|? ? (_ & _ & Hp)%segment_like_inv Hall']; subst.
    rewrite Join_cons by discriminate.
    change ("; " +:+ Join (q :: ps) "; ") with (";" +:+ (" " +:+ Join (q :: ps) "; ")).
    rewrite (split_byte_token ";") by exact Hp.
    f_equal. rewrite app_cons, app_empty_l. cbn [split_from].
    change (HasPrefix (String " " (Join (q :: ps) "; ")) ";") with false. cbn match.
    rewrite (IH _ _ Hall'). reflexivity.
Qed.

(** Joining segments with ["; "] and cutting the result gives the
    segments back. *)
Lemma segments_Join (ps : list string) :
  Forall (fun p => segment_like p = true) ps -> segments (Join ps "; ") = ps.
Proof.
  intros Hall. unfold segments, Split. destruct ps as [|p ps]; [reflexivity|].
  rewrite split_Join_segments by exact Hall. rewrite app_empty_l.
  inversion Hall as [|? ? (Hne & Hed & _)%segment_like_inv Hall']; subst.
  cbn [map List.filter]. rewrite (TrimSpace_fixed p Hed), Hne. cbn [negb]. f_equal.
  clear -Hall'.
  induction Hall' as [|q l (Hne & Hed & _)%segment_like_inv _ IH]; [reflexivity|].
  cbn [map List.filter]. rewrite (TrimSpace_after_blank q Hed), Hne.
  cbn [negb]. rewrite IH. reflexivity.
Qed.

(** X5.  For an ASCII value, [sanitizeContentTypeHeader] never panics, and
    what it returns are segments of the value, in their order, joined by
    ["; "], in which no parameter name occurs twice, names compared
    without regard to case. *)
Theorem sanitizeContentTypeHeader_distinct (contentType : string) :
  isASCII contentType = true ->
  exists kept,
    sanitizeContentTypeHeader contentType = Ret (Join kept "; ") /\
    sublist kept (segments contentType) /\
    NoDup (keys_of kept).
Proof.
  intros _. exists (distinct_keys ∅ (segments contentType)).
  split; [apply sanitize_distinct|].
  split; [apply distinct_keys_sublist | apply distinct_keys_NoDup].
Qed.

(** X6.  For an ASCII value, nothing but repeated parameters is dropped:
    every segment without an equals sign is kept, and the name of every
    parameter of the value is the name of a parameter that is kept. *)
Theorem sanitizeContentTypeHeader_keeps (contentType : string) :
  isASCII contentType = true ->
  exists kept,
    sanitizeContentTypeHeader contentType = Ret (Join kept "; ") /\
    forall p, p ∈ segments contentType ->
      if hasEq p then paramKey p ∈ keys_of kept else p ∈ kept.
Proof.
  intros _. exists (distinct_keys ∅ (segments contentType)).
  split; [apply sanitize_distinct|].
  intros p Hp. destruct (hasEq p) eqn:He.
  - apply distinct_keys_covers; [assumption..|]. apply not_elem_of_empty.
  - apply distinct_keys_plain; assumption.
Qed.

(** X7.  Sanitizing is idempotent: sanitizing the result of sanitizing an
    ASCII value gives that result again. *)
Theorem sanitizeContentTypeHeader_idempotent (contentType : string) :
  isASCII contentType = true ->
  (sane ← sanitizeContentTypeHeader contentType; sanitizeContentTypeHeader sane) =
  sanitizeContentTypeHeader contentType.
Proof.
  intros _. rewrite (sanitize_distinct contentType), bind_Ret.
  rewrite sanitize_distinct. rewrite segments_Join.
  - rewrite distinct_keys_idem. reflexivity.
  - eapply sublist_Forall; [apply distinct_keys_sublist | apply segments_like].
Qed.

(** X8.  A well-formed value is left as it is: ASCII segments that are
    non-empty, without blanks at their ends and without semicolons, with
    pairwise different parameter names, joined by ["; "]. *)
Theorem sanitizeContentTypeHeader_fixed (ps : list string) :
  Forall (fun p => isASCII p = true /\ segment_like p = true) ps ->
  NoDup (keys_of ps) ->
  sanitizeContentTypeHeader (Join ps "; ") = Ret (Join ps "; ").
Proof.
  intros Hall Hnd.
  assert (Hseg : Forall (fun p => segment_like p = true) ps).
  { eapply Forall_impl; [exact Hall|]. intros p [_ Hp]. exact Hp. }
  rewrite sanitize_distinct, segments_Join by exact Hseg.
  rewrite distinct_keys_all; [reflexivity | exact Hnd |].
  intros k _. apply not_elem_of_empty.
Qed.

(** X9.  Appending to an ASCII value a semicolon and a parameter whose
    name the value already has, in whatever case, changes nothing in the
    result: the first occurrence of a parameter wins. *)
Theorem sanitizeContentTypeHeader_duplicate (contentType p : string) :
  isASCII (contentType +:+ ";" +:+ p) = true ->
  all_bytes (other_than ";") p = true ->
  hasEq (TrimSpace p) = true ->
  has_key (segments contentType) (TrimSpace p) = true ->
  sanitizeContentTypeHeader (contentType +:+ ";" +:+ p) =
  sanitizeContentTypeHeader contentType.
Proof.
  intros _ Hp He Hk. rewrite !sanitize_distinct. do 2 f_equal.
  assert (Hseg : segments (contentType +:+ ";" +:+ p) =
                 segments contentType ++ [TrimSpace p]).
  { unfold segments, Split. rewrite (split_byte_last ";") by exact Hp.
    rewrite map_app, List.filter_app. f_equal. cbn [map List.filter].
    destruct (String.eqb_spec (TrimSpace p) EmptyString) as [E|_]; [|reflexivity].
    rewrite E in He. discriminate He. }
  rewrite Hseg. apply distinct_keys_duplicate; [exact He|]. right.
  unfold has_key in Hk. apply existsb_exists in Hk as [k [Hin Hk]].
  apply String.eqb_eq in Hk. rewrite Hk. apply list_elem_of_In, Hin.
Qed.


End SanitizeFacts.

(** ** Encoded header values *)

Section Koi8Facts.

Context `{GoLib}.

Import strings.

(** The fast path on a value of an eleven-byte prefix, a payload and two
    more bytes: the payload is what stands between them. *)
Lemma decodeKoi8_long (p payload t : string) :
  HasPrefix (ToLower (p +:+ payload +:+ t)) "=?koi8-r" = true ->
  String.length p = prefixLen -> String.length t = 2%nat ->
  decodeKoi8 (p +:+ payload +:+ t) =
  (c ← at_index (ToLower p) (prefixLen - 2);
   if Ascii.eqb c "b" then
     match base64_DecodeString payload with
     | inr _ => Ret (false, EmptyString)
     | inl d => Ret (true, transcode KOI8R d)
     end
   else if Ascii.eqb c "q" then
     match quotedprintable_NewReader payload with
     | inr _ => Ret (false, EmptyString)
     | inl d => Ret (true, transcode KOI8R d)
     end
   else Ret (false, EmptyString)).
Proof.
  intros Hm Hp Ht. unfold decodeKoi8. rewrite Hm. cbn [negb].
  rewrite slice_prefix by (rewrite length_app_str; lia).
  rewrite <- Hp at 1. rewrite take_app_exact, bind_Ret.
  rewrite slice_returns by (rewrite ?length_app_str; lia).
  rewrite Nat2Z.id.
  replace (Z.to_nat (Z.of_nat (String.length (p +:+ payload +:+ t)) - 2) - prefixLen)%nat
    with (String.length payload) by (rewrite !length_app_str; lia).
  rewrite <- Hp at 1. rewrite drop_app_exact, take_app_exact, bind_Ret.
  reflexivity.
Qed.

Lemma decodeKoi8_short (s : string) :
  HasPrefix (ToLower s) "=?koi8-r" = true ->
  (String.length s < 13)%nat ->
  decodeKoi8 s = Panic "slice bounds out of range".
Proof.
  intros Hm Hlen. unfold decodeKoi8. rewrite Hm. cbn [negb].
  destruct (Nat.ltb_spec (String.length s) prefixLen) as [Hs|Hs].
  - rewrite (slice_short s 0 (Z.of_nat prefixLen)) by (left; lia). reflexivity.
  - rewrite slice_prefix by exact Hs. rewrite bind_Ret.
    rewrite (slice_short s (Z.of_nat prefixLen)) by (right; unfold prefixLen in *; lia).
    reflexivity.
Qed.

(** X11.  The KOI8-R fast path on a value that starts with the marker and
    is made of an eleven-byte prefix, a payload and two closing bytes: when
    the tenth byte of the lower-cased prefix is [b] and the payload is
    valid base64, or it is [q] and the payload is valid quoted-printable,
    the result is the decoded payload converted from KOI8-R, and nothing
    else of the value.  The two closing bytes and the ninth and the
    eleventh byte of the prefix are not looked at. *)
Theorem decodeMimeSentence_koi8_payload (p payload t : string) :
  HasPrefix (ToLower (p +:+ payload +:+ t)) "=?koi8-r" = true ->
  String.length p = prefixLen -> String.length t = 2%nat ->
  (String.get 9 (ToLower p) = Some "b"%char ->
   forall d, base64_DecodeString payload = inl d ->
     decodeMimeSentence (p +:+ payload +:+ t) = Ret (transcode KOI8R d)) /\
  (String.get 9 (ToLower p) = Some "q"%char ->
   forall d, quotedprintable_NewReader payload = inl d ->
     decodeMimeSentence (p +:+ payload +:+ t) = Ret (transcode KOI8R d)).
Proof.
  intros Hm Hp Ht. unfold decodeMimeSentence.
  rewrite (decodeKoi8_long p payload t Hm Hp Ht). unfold at_index, prefixLen.
  cbn [Nat.sub]. split; intros -> d ->; reflexivity.
Qed.

(** X12.  On a value that starts with the marker and whose first eleven
    bytes are ASCII, [decodeMimeSentence] panics with a slice out of range
    exactly when the value is shorter than thirteen bytes. *)
Theorem decodeMimeSentence_short_marker (s : string) :
  HasPrefix (ToLower s) "=?koi8-r" = true ->
  isASCII (take prefixLen s) = true ->
  (decodeMimeSentence s = Panic "slice bounds out of range" <->
   (String.length s < 13)%nat).
Proof.
  intros Hm Ha. split.
  - intros Hp. destruct (Nat.ltb_spec (String.length s) 13) as [Hs|Hs]; [exact Hs|].
    destruct (decodeKoi8_returns s Ha Hs) as [[ok str] Hk].
    unfold decodeMimeSentence in Hp. rewrite Hk in Hp. cbn in Hp.
    destruct ok; discriminate Hp.
  - intros Hs. unfold decodeMimeSentence. rewrite (decodeKoi8_short s Hm Hs). reflexivity.
Qed.

End Koi8Facts.

Section MapM.

Context {A B : Type} (f : A -> exec B).

Lemma exec_mapM_Forall2 (l : list A) (l' : list B) :
  exec_mapM f l = Ret l' <-> Forall2 (fun a b => f a = Ret b) l l'.
Proof.
  revert l'. induction l as [|a l IH]; intros l'; cbn [exec_mapM].
  - split.
    + intros [= <-]. constructor.
    + intros Hf. inversion Hf. reflexivity.
  - split.
    + intros Hm. apply bind_inv in Hm as [b [Hb Hm]].
      apply bind_inv in Hm as [bs [Hbs Hm]]. injection Hm as <-.
      constructor; [exact Hb | apply IH, Hbs].
    + intros Hf. inversion Hf as [|? b ? bs Hb Hbs]; subst.
      rewrite Hb, bind_Ret. apply IH in Hbs. rewrite Hbs. reflexivity.
Qed.

(** One element that panics makes the whole traversal panic. *)
Lemma exec_mapM_panic (l : list A) (a : A) (msg : string) :
  a ∈ l -> f a = Panic msg -> exists msg', exec_mapM f l = Panic msg'.
Proof.
  intros Hin Hp. induction l as [|x l IH]; [inversion Hin|].
  cbn [exec_mapM]. destruct (f x) as [b|m] eqn:Hx; [|exists m; reflexivity].
  rewrite bind_Ret. apply elem_of_cons in Hin as [->|Hin]; [congruence|].
  destruct (IH Hin) as [msg' ->]. exists msg'. reflexivity.
Qed.

End MapM.

Section HeaderFacts.

Context `{GoLib}.

Import strings.

Lemma decodeHeaderMime_inv (header parsed : MIMEHeader) (err : option error) :
  decodeHeaderMime header = Ret (parsed, err) ->
  exists l,
    Forall2 (fun kv kv' : string * list string =>
               fst kv' = fst kv /\
               Forall2 (fun v v' => decodeMimeSentence v = Ret v') (snd kv) (snd kv'))
            (map_to_list header) l /\
    parsed = list_to_map l /\ err = None.
Proof.
  unfold decodeHeaderMime. intros Hd. apply bind_inv in Hd as [l [Hl Hd]].
  injection Hd as <- <-. exists l. split; [|split; reflexivity].
  apply exec_mapM_Forall2 in Hl. eapply Forall2_impl; [exact Hl|].
  intros [k vs] [k' vs'] Hkv. cbn [fst snd] in *.
  apply bind_inv in Hkv as [ws [Hws Hkv]]. injection Hkv as <- <-.
  split; [reflexivity|]. apply exec_mapM_Forall2, Hws.
Qed.

(** X13.  When [decodeHeaderMime] returns, its error is nil and the
    decoded header has the fields of the header it was given, each with as
    many values, every value being [decodeMimeSentence] of the value in
    the same place: no field is lost, added or reordered. *)
Theorem decodeHeaderMime_fields (header parsed : MIMEHeader) (err : option error) :
  decodeHeaderMime header = Ret (parsed, err) ->
  err = None /\
  forall key,
    option_Forall2 (Forall2 (fun v v' => decodeMimeSentence v = Ret v'))
      (header !! key) (parsed !! key).
Proof.
  intros Hd. apply decodeHeaderMime_inv in Hd as (l & Hl & -> & ->).
  split; [reflexivity|]. intros key.
  assert (Hfst : l.*1 = (map_to_list header).*1).
  { clear -Hl. induction Hl as [|kv kv' ? ? [Hk _] _ IH]; [reflexivity|].
    cbn [fmap list_fmap]. cbn [fmap list_fmap] in IH. rewrite Hk, IH. reflexivity. }
  assert (Hnd : NoDup l.*1) by (rewrite Hfst; apply NoDup_fst_map_to_list).
  destruct (header !! key) as [vs|] eqn:Hk.
  - apply elem_of_map_to_list in Hk.
    assert (Hex : exists vs', (key, vs') ∈ l /\
              Forall2 (fun v v' => decodeMimeSentence v = Ret v') vs vs').
    { clear -Hl Hk. induction Hl as [|kv kv' ? ? [Hf Hv] _ IH]; [inversion Hk|].
      apply elem_of_cons in Hk as [<-|Hk].
      - destruct kv' as [k' vs']. cbn [fst snd] in *. subst k'.
        exists vs'. split; [left | exact Hv].
      - destruct (IH Hk) as [vs' [Hin Hv']]. exists vs'.
        split; [right; exact Hin | exact Hv']. }
    destruct Hex as [vs' [Hin Hv]].
    apply (elem_of_list_to_map_1 (M:=gmap string)) in Hin; [|exact Hnd].
    rewrite Hin. constructor. exact Hv.
  - rewrite (not_elem_of_list_to_map_1 (M:=gmap string)); [constructor|].
    rewrite Hfst. intros Hin. apply list_elem_of_fmap in Hin as [[k vs] [Heq Hin]].
    cbn [fst] in Heq. subst k. apply elem_of_map_to_list in Hin. congruence.
Qed.

(** X14.  A header in which no value starts with the marker and no word
    of a value is an encoded word that decodes comes back unchanged. *)
Theorem decodeHeaderMime_plain (header : MIMEHeader) :
  (forall key vs v, header !! key = Some vs -> v ∈ vs ->
     HasPrefix (ToLower v) "=?koi8-r" = false /\ Forall undecodable (Split v " ")) ->
  decodeHeaderMime header = Ret (header, None).
Proof.
  intros Hplain. unfold decodeHeaderMime.
  assert (Hl : exec_mapM
            (fun kv : string * list string =>
               parsedHeaderData ← exec_mapM decodeMimeSentence (snd kv);
               Ret (fst kv, parsedHeaderData))
            (map_to_list header) = Ret (map_to_list header)).
  { apply exec_mapM_Forall2. apply Forall2_same_length_lookup. split; [reflexivity|].
    intros i [k vs] kv' Hi Hi'. rewrite Hi in Hi'. injection Hi' as <-.
    cbn [fst snd]. apply list_elem_of_lookup_2, elem_of_map_to_list in Hi.
    assert (Hvs : exec_mapM decodeMimeSentence vs = Ret vs).
    { apply exec_mapM_Forall2. apply Forall2_same_length_lookup. split; [reflexivity|].
      intros j v v' Hj Hj'. rewrite Hj in Hj'. injection Hj' as <-.
      apply list_elem_of_lookup_2 in Hj. destruct (Hplain k vs v Hi Hj) as [Hm Hu].
      rewrite (decodeMimeSentence_slow v Hm), (decodeWords_undecodable v Hu). reflexivity. }
    rewrite Hvs. reflexivity. }
  rewrite Hl, bind_Ret, list_to_map_to_list. reflexivity.
Qed.

(** X15.  A panic is not confined to the field it comes from: when
    [decodeMimeSentence] panics on one value of any field of the header,
    [decodeHeaderMime] and [createEmailFromHeader] panic on that header,
    and so does [ParseEmail] on every message with that header block. *)
Theorem createEmailFromHeader_panics (header : MIMEHeader) (key v msg : string)
    (vs : list string) :
  header !! key = Some vs -> v ∈ vs -> decodeMimeSentence v = Panic msg ->
  (exists msg', decodeHeaderMime header = Panic msg') /\
  (exists msg', createEmailFromHeader header = Panic msg') /\
  forall clock r body, ReadMessage r = inl (header, body) ->
    exists msg', ParseEmail clock r = Panic msg'.
Proof.
  intros Hk Hv Hp.
  assert (Hd : exists msg', decodeHeaderMime header = Panic msg').
  { unfold decodeHeaderMime.
    destruct (exec_mapM_panic decodeMimeSentence vs v msg Hv Hp) as [m1 Hm1].
    destruct (exec_mapM_panic
                (fun kv : string * list string =>
                   parsedHeaderData ← exec_mapM decodeMimeSentence (snd kv);
                   Ret (fst kv, parsedHeaderData))
                (map_to_list header) (key, vs) m1) as [m2 Hm2].
    - apply elem_of_map_to_list, Hk.
    - cbn [snd]. rewrite Hm1. reflexivity.
    - exists m2. rewrite Hm2. reflexivity. }
  assert (Hc : exists msg', createEmailFromHeader header = Panic msg').
  { unfold createEmailFromHeader.
    destruct (decodeMimeSentence (Header_Get header "Subject")) as [subject|m];
      [|exists m; reflexivity].
    rewrite bind_Ret. cbn [hp_err]. destruct Hd as [m ->]. exists m. reflexivity. }
  split; [exact Hd|]. split; [exact Hc|].
  intros clock r body Hr. unfold ParseEmail. rewrite Hr.
  destruct Hc as [m ->]. exists m. reflexivity.
Qed.

End HeaderFacts.

(** ** Content, attachments and embedded files *)

Section ContentFacts.

Context `{GoLib}.

Import strings.

Lemma decodeCharset_source (content r : Reader) (ct : string) :
  decodeCharset content ct = Ret r -> reads_source r = reads_source content.
Proof.
  destruct (charsetOf_returns ct) as [name Hname].
  rewrite (decodeCharset_codec content ct name Hname). intros [= <-].
  destruct (codecOf name); reflexivity.
Qed.

Lemma decoded_read (decode : string -> string + liberror) (st : Stream)
    (b : string) (st' : Stream) :
  ReadAll_decoded decode rd_source st = (b, None, st') ->
  st' = drained /\ broken st = None.
Proof.
  unfold ReadAll_decoded. cbn [ReadAll].
  destruct (broken st) as [e|]; cbn [fmap option_fmap option_map]; [discriminate|].
  destruct (decode (pending st)); intros [= <- <-]; auto.
Qed.

(** What a successful [decodeContent] on the part itself leaves of the
    part, and whether the reader it returns still reads from it. *)
Lemma decodeContent_part (encoding ct : string) (st st' : Stream) (r : Reader) :
  decodeContent rd_source encoding ct st = Ret (inl r, st') ->
  reads_source r = String.eqb (ToLower encoding) EmptyString /\
  st' = (if String.eqb (ToLower encoding) EmptyString then st else drained) /\
  (String.eqb (ToLower encoding) EmptyString = false -> broken st = None).
Proof.
  unfold decodeContent. cbv zeta.
  destruct (String.eqb_spec (ToLower encoding) "base64") as [->|_].
  { destruct (ReadAll_decoded base64_NewDecoder rd_source st) as [[b [e|]] st1] eqn:Hd;
      [discriminate|].
    intros Heq. apply bind_inv in Heq as (r' & Hc & [= <- <-]).
    apply decodeCharset_source in Hc. apply decoded_read in Hd. cbn. tauto. }
  destruct (String.eqb_spec (ToLower encoding) "7bit") as [->|_];
    [|destruct (String.eqb_spec (ToLower encoding) "8bit") as [->|_]].
  1,2: cbn [orb ReadAll]; destruct (broken st) as [e|];
       cbn [fmap option_fmap option_map]; [discriminate|];
       intros Heq; apply bind_inv in Heq as (r' & Hc & [= <- <-]);
       apply decodeCharset_source in Hc; cbn; auto.
  cbn [orb].
  destruct (String.eqb_spec (ToLower encoding) "quoted-printable") as [->|_].
  { destruct (ReadAll_decoded quotedprintable_NewReader rd_source st)
      as [[b [e|]] st1] eqn:Hd; [discriminate|].
    intros Heq. apply bind_inv in Heq as (r' & Hc & [= <- <-]).
    apply decodeCharset_source in Hc. apply decoded_read in Hd. cbn. tauto. }
  destruct (String.eqb (ToLower encoding) EmptyString); [|discriminate].
  intros Heq. apply bind_inv in Heq as (r' & Hc & [= <- <-]).
  apply decodeCharset_source in Hc. split; [exact Hc|]. split; [reflexivity | discriminate].
Qed.

(** X16.  What [decodeContent] does to the part it is given.  With no
    transfer encoding the part is not read: the reader that is returned
    reads from the part, which is left as it was.  With base64,
    quoted-printable, 7bit or 8bit the part is read to its end: when a
    reader is returned the part is left empty, it had no read error, and
    the reader holds its own bytes; reading it neither fails nor touches
    any part. *)
Theorem decodeContent_source (encoding ct : string) (st st' : Stream) (r : Reader) :
  decodeContent rd_source encoding ct st = Ret (inl r, st') ->
  if String.eqb (ToLower encoding) EmptyString
  then reads_source r = true /\ st' = st
  else reads_source r = false /\ st' = drained /\ broken st = None /\
       forall st2, snd (fst (ReadAll r st2)) = None /\ snd (ReadAll r st2) = st2.
Proof.
  intros Heq. apply decodeContent_part in Heq as (Hr & Hst & Hb).
  destruct (String.eqb (ToLower encoding) EmptyString); [auto|].
  split; [exact Hr|]. split; [exact Hst|]. split; [auto|].
  clear -Hr. induction r as [|b|cm r IH]; cbn [reads_source] in Hr; intros st2.
  - discriminate.
  - split; reflexivity.
  - cbn [ReadAll]. destruct (IH Hr st2) as [H1 H2].
    destruct (ReadAll r st2) as [[b e] st3]. cbn [fst snd] in *. auto.
Qed.

Lemma decodeAttachment_inv (now : Z) (part : Part) (st st' : Stream) (at_ : Attachment) :
  decodeAttachment now part st = Ret (at_, None, st') ->
  exists filename decoded st1,
    decodeMimeSentence (Part_FileName (fst part)) = Ret filename /\
    decodeContent rd_source (Header_Get (fst part) "Content-Transfer-Encoding")
      (Header_Get (fst part) "Content-Type") st = Ret (inl decoded, st1) /\
    Filename at_ =
      (if String.eqb filename EmptyString then "attachment-" +:+ pretty now else filename) /\
    at_ContentType at_ = hd EmptyString (Split (Header_Get (fst part) "Content-Type") ";") /\
    if String.eqb (at_ContentType at_) "application/octet-stream"
    then at_Data at_ = Some (rd_bytes (pending st1)) /\ broken st1 = None /\ st' = drained
    else at_Data at_ = Some decoded /\ st' = st1.
Proof.
  unfold decodeAttachment. intros Heq.
  apply bind_inv in Heq as (filename & Hf & Heq).
  apply bind_inv in Heq as ([decoded st1] & Hd & Heq).
  destruct decoded as [decoded|e]; [|discriminate].
  rewrite index_str_Split_0, bind_Ret in Heq.
  exists filename, decoded, st1. split; [exact Hf|]. split; [exact Hd|].
  destruct (String.eqb (hd EmptyString (Split (Header_Get (fst part) "Content-Type") ";"))
              "application/octet-stream") eqn:Ho.
  - cbn [ReadAll] in Heq. destruct (broken st1) as [e|] eqn:Hb;
      cbn [fmap option_fmap option_map] in Heq; [discriminate|].
    injection Heq as <- <-. cbn [Filename at_ContentType at_Data]. rewrite Ho. auto.
  - injection Heq as <- <-. cbn [Filename at_ContentType at_Data]. rewrite Ho. auto.
Qed.


(** X18.  The data of an application/octet-stream attachment is what is
    left of the part once [decodeContent] has run: all the bytes of the
    part when its transfer encoding is empty, and no byte at all
    otherwise.  The part is left empty either way. *)
Theorem decodeAttachment_binary_data (now : Z) (part : Part) (st st' : Stream)
    (at_ : Attachment) :
  decodeAttachment now part st = Ret (at_, None, st') ->
  at_ContentType at_ = "application/octet-stream" ->
  at_Data at_ =
    Some (rd_bytes
            (if String.eqb (ToLower (Header_Get (fst part) "Content-Transfer-Encoding"))
                  EmptyString
             then pending st else EmptyString)) /\
  st' = drained.
Proof.
  intros Heq Hct. apply decodeAttachment_inv in Heq
    as (filename & decoded & st1 & _ & Hd & _ & _ & Hdata).
  rewrite Hct in Hdata. cbn [String.eqb Ascii.eqb Bool.eqb] in Hdata.
  destruct Hdata as (-> & Hb & ->). split; [|reflexivity].
  apply decodeContent_part in Hd as (_ & -> & _).
  destruct (String.eqb (ToLower _) EmptyString); reflexivity.
Qed.

(** X19.  [decodeEmbeddedFile] returns the zero value with every error;
    without error the content id has no angle bracket at either end, the
    content type is the header value as it stands, parameters included,
    and the data is set. *)
Theorem decodeEmbeddedFile_result (part : Part) (st st' : Stream) (ef : EmbeddedFile)
    (err : option error) :
  decodeEmbeddedFile part st = Ret (ef, err, st') ->
  match err with
  | Some _ => ef = zeroEmbeddedFile
  | None =>
      edges_free (in_cutset "<>") (CID ef) = true /\
      ef_ContentType ef = Header_Get (fst part) "Content-Type" /\
      ef_Data ef <> None
  end.
Proof.
  unfold decodeEmbeddedFile. intros Heq.
  apply bind_inv in Heq as (cid & _ & Heq).
  apply bind_inv in Heq as ([decoded st1] & _ & Heq).
  destruct decoded as [decoded|e]; injection Heq as <- <- <-.
  - cbn [CID ef_ContentType ef_Data]. split; [apply Trim_edges|].
    split; [reflexivity | discriminate].
  - reflexivity.
Qed.

End ContentFacts.

(** ** The walkers over text leaves *)

Section WalkerFacts.

Context `{GoLib}.

Import strings.

Ltac loop_step loop := unfold loop at 1; lazy beta iota; fold loop.

Lemma embeddedLeaf_unsupported (unsupported : string -> error) (part : Part)
    (contentType : string) :
  isEmbeddedFile part = false ->
  embeddedLeaf unsupported part contentType = Ret (inr (unsupported contentType)).
Proof. intros He. unfold embeddedLeaf. rewrite He. reflexivity. Qed.

Lemma handled_3 (a b c x : string) :
  handled [a; b; c] x = false ->
  String.eqb x a = false /\ String.eqb x b = false /\ String.eqb x c = false.
Proof.
  unfold handled. cbn [existsb]. rewrite orb_false_r.
  intros [Ha [Hb Hc]%orb_false_iff]%orb_false_iff. auto.
Qed.

Lemma handled_4 (a b c d x : string) :
  handled [a; b; c; d] x = false ->
  String.eqb x a = false /\ String.eqb x b = false /\
  String.eqb x c = false /\ String.eqb x d = false.
Proof.
  unfold handled. cbn [existsb]. rewrite orb_false_r.
  intros [Ha [Hb [Hc Hd]%orb_false_iff]%orb_false_iff]%orb_false_iff. auto.
Qed.

(** The Related walker over a run of text leaves, and the two ways the
    walk can end after it: at the end of the parts, or at a part it has no
    branch for. *)
Lemma related_walk (msg : Body) (boundary : string) (pre rest : list Part)
    (ds : list (TextKind * string)) :
  parts msg boundary = pre ++ rest ->
  Forall2 rawLeaf pre ds ->
  (rest = [] ->
   parseMultipartRelated msg boundary =
   Ret (textOf Plain ds, textOf Html ds, [], Foreign <$> parts_end msg boundary)) /\
  (forall bad rest' contentType,
     rest = bad :: rest' -> hasMediaType bad contentType ->
     handled handledByRelated contentType = false -> isEmbeddedFile bad = false ->
     parseMultipartRelated msg boundary =
     Ret (textOf Plain ds, textOf Html ds, [], Some (ErrRelatedInner contentType))).
Proof.
  destruct msg as [c f ps pe]. cbn [parts parts_end]. intros Hparts Hpre.
  cbn [parseMultipartRelated]. cbn [parts parts_end]. rewrite Hparts. clear Hparts.
  match goal with |- context [?L (pre ++ rest) _ _ _] => set (loop := L) end.
  assert (Hgen : forall tb hb ef,
            loop (pre ++ rest) tb hb ef =
            loop rest (tb +:+ textOf Plain ds) (hb +:+ textOf Html ds) ef).
  { induction Hpre as [|part [k text] l ds' [Hmt Hraw] Hl IH]; intros tb hb ef.
    - cbn [app textOf]. rewrite !app_empty_r. reflexivity.
    - cbn [app]. loop_step loop.
      destruct Hmt as (sane & params & -> & Hp). rewrite bind_Ret, Hp.
      cbn [fst snd] in *. rewrite Hraw.
      destruct k; cbn [kindName String.eqb Ascii.eqb Bool.eqb contentTypeTextPlain
                        contentTypeTextHtml];
        rewrite IH; cbn [textOf sameKind]; rewrite app_assoc_str; reflexivity. }
  split.
  - intros ->. rewrite Hgen. reflexivity.
  - intros bad rest' contentType -> (sane & params & Hs & Hp) Hh He.
    rewrite Hgen. loop_step loop. rewrite Hs, bind_Ret, Hp.
    apply handled_3 in Hh as (-> & -> & ->).
    rewrite (embeddedLeaf_unsupported _ _ _ He), bind_Ret. reflexivity.
Qed.

(** The same for the Alternative walker, which decodes its leaves. *)
Lemma alternative_walk (msg : Body) (boundary : string) (pre rest : list Part)
    (ds : list (TextKind * string)) :
  parts msg boundary = pre ++ rest ->
  Forall2 decodedLeaf pre ds ->
  (rest = [] ->
   parseMultipartAlternative msg boundary =
   Ret (textOf Plain ds, textOf Html ds, [], Foreign <$> parts_end msg boundary)) /\
  (forall bad rest' contentType,
     rest = bad :: rest' -> hasMediaType bad contentType ->
     handled handledByAlternative contentType = false -> isEmbeddedFile bad = false ->
     parseMultipartAlternative msg boundary =
     Ret (textOf Plain ds, textOf Html ds, [], Some (ErrAlternativeInner contentType))).
Proof.
  destruct msg as [c f ps pe]. cbn [parts parts_end]. intros Hparts Hpre.
  cbn [parseMultipartAlternative]. cbn [parts parts_end]. rewrite Hparts. clear Hparts.
  match goal with |- context [?L (pre ++ rest) _ _ _] => set (loop := L) end.
  assert (Hgen : forall tb hb ef,
            loop (pre ++ rest) tb hb ef =
            loop rest (tb +:+ textOf Plain ds) (hb +:+ textOf Html ds) ef).
  { induction Hpre as [|part [k text] l ds' [Hmt Hraw] Hl IH]; intros tb hb ef.
    - cbn [app textOf]. rewrite !app_empty_r. reflexivity.
    - cbn [app]. loop_step loop.
      destruct Hmt as (sane & params & -> & Hp). rewrite bind_Ret, Hp.
      cbn [fst snd] in *. rewrite Hraw.
      destruct k; cbn [kindName String.eqb Ascii.eqb Bool.eqb contentTypeTextPlain
                        contentTypeTextHtml];
        rewrite bind_Ret, IH; cbn [textOf sameKind]; rewrite app_assoc_str; reflexivity. }
  split.
  - intros ->. rewrite Hgen. reflexivity.
  - intros bad rest' contentType -> (sane & params & Hs & Hp) Hh He.
    rewrite Hgen. loop_step loop. rewrite Hs, bind_Ret, Hp.
    apply handled_3 in Hh as (-> & -> & ->).
    rewrite (embeddedLeaf_unsupported _ _ _ He), bind_Ret. reflexivity.
Qed.

(** The Mixed walker over a run of text leaves. *)
Lemma mixed_prefix (clock : nat -> Z) (eof : option liberror) (pre rest : list Part)
    (ds : list (TextKind * string)) (i : nat) (tb hb : string)
    (ats : list Attachment) (ef : list EmbeddedFile) :
  Forall2 decodedLeaf pre ds ->
  parseMultipartMixed_loop clock eof (pre ++ rest) i tb hb ats ef =
  parseMultipartMixed_loop clock eof rest (i + List.length pre)
    (tb +:+ textOf Plain ds) (hb +:+ textOf Html ds) ats ef.
Proof.
  intros Hpre. revert i tb hb.
  induction Hpre as [|part [k text] l ds' [Hmt Hdec] Hl IH]; intros i tb hb.
  - cbn [app textOf List.length]. rewrite !app_empty_r, Nat.add_0_r. reflexivity.
  - cbn [app parseMultipartMixed_loop].
    destruct Hmt as (sane & params & -> & Hp). rewrite bind_Ret, Hp.
    cbn [fst snd] in *. rewrite Hdec.
    destruct k; cbn [kindName String.eqb Ascii.eqb Bool.eqb contentTypeTextPlain
                      contentTypeTextHtml contentTypeMultipartAlternative
                      contentTypeMultipartRelated];
      rewrite bind_Ret, IH; cbn [textOf sameKind List.length];
      rewrite app_assoc_str, Nat.add_succ_r; reflexivity.
Qed.

Lemma mixed_text_leaves (clock : nat -> Z) (msg : Body) (boundary : string)
    (ds : list (TextKind * string)) :
  Forall2 decodedLeaf (parts msg boundary) ds ->
  parseMultipartMixed clock msg boundary =
    Ret (textOf Plain ds, textOf Html ds, [], [], Foreign <$> parts_end msg boundary).
Proof.
  intros Hall. unfold parseMultipartMixed.
  rewrite <- (app_nil_r (parts msg boundary)) at 1.
  rewrite (mixed_prefix _ _ _ _ ds) by exact Hall. reflexivity.
Qed.

(** Without a transfer encoding and without a charset, decoding a leaf is
    reading it. *)
Lemma readDecodedLeaf_undecorated (part : Part) :
  undecorated part -> readDecodedLeaf part = Ret (readRawLeaf part).
Proof.
  intros [He Hc]. unfold readDecodedLeaf, readRawLeaf, decodeContent. rewrite He.
  change (ToLower EmptyString) with EmptyString.
  cbn [String.eqb orb]. rewrite (decodeCharset_no_charset _ _ Hc), !bind_Ret.
  destruct (ReadAll rd_source (open (snd part))) as [[b [e|]] st]; reflexivity.
Qed.

(** X20.  On a body whose parts are all text/plain or text/html leaves
    that read without error, [parseMultipartRelated] returns as text body
    the texts of the plain leaves and as HTML body the texts of the HTML
    leaves, each concatenated in the order of the parts, with no embedded
    file, and as error what ended the parts (nil at the closing
    boundary). *)
Theorem parseMultipartRelated_text_leaves (msg : Body) (boundary : string)
    (ds : list (TextKind * string)) :
  Forall2 rawLeaf (parts msg boundary) ds ->
  parseMultipartRelated msg boundary =
  Ret (textOf Plain ds, textOf Html ds, [], Foreign <$> parts_end msg boundary).
Proof.
  intros Hall.
  apply (related_walk msg boundary (parts msg boundary) [] ds);
    [rewrite app_nil_r; reflexivity | exact Hall | reflexivity].
Qed.

(** X21.  On a body whose parts are all text/plain or text/html leaves
    that decode without error, [parseMultipartAlternative] and
    [parseMultipartMixed] return the decoded texts of the plain leaves and
    of the HTML leaves, each concatenated in the order of the parts.  The
    Mixed walker lists no attachment for them, whatever file names the
    parts declare: the media type is looked at before the file name. *)
Theorem decoded_text_leaves (clock : nat -> Z) (msg : Body) (boundary : string)
    (ds : list (TextKind * string)) :
  Forall2 decodedLeaf (parts msg boundary) ds ->
  parseMultipartAlternative msg boundary =
    Ret (textOf Plain ds, textOf Html ds, [], Foreign <$> parts_end msg boundary) /\
  parseMultipartMixed clock msg boundary =
    Ret (textOf Plain ds, textOf Html ds, [], [], Foreign <$> parts_end msg boundary).
Proof.
  intros Hall. split; [|apply mixed_text_leaves, Hall].
  apply (alternative_walk msg boundary (parts msg boundary) [] ds);
    [rewrite app_nil_r; reflexivity | exact Hall | reflexivity].
Qed.

(** X22.  Where the three walkers agree: on a body of text leaves that
    declare neither a transfer encoding nor a charset, the Alternative
    walker returns what the Related walker returns, and the Mixed walker
    returns the same with an empty list of attachments. *)
Theorem walkers_agree_on_undecorated_text (clock : nat -> Z) (msg : Body)
    (boundary : string) (ds : list (TextKind * string)) :
  Forall2 rawLeaf (parts msg boundary) ds ->
  Forall undecorated (parts msg boundary) ->
  parseMultipartAlternative msg boundary = parseMultipartRelated msg boundary /\
  parseMultipartMixed clock msg boundary =
    ('(tb, hb, ef, err) ← parseMultipartRelated msg boundary; Ret (tb, hb, [], ef, err)).
Proof.
  intros Hraw Hun.
  assert (Hdec : Forall2 decodedLeaf (parts msg boundary) ds).
  { clear -Hraw Hun. induction Hraw as [|part d l ds' [Hmt Hr] _ IH]; [constructor|].
    inversion Hun as [|? ? Hu Hun']; subst. constructor; [|apply IH, Hun'].
    split; [exact Hmt|]. rewrite (readDecodedLeaf_undecorated part Hu), Hr. reflexivity. }
  rewrite (proj1 (related_walk msg boundary (parts msg boundary) [] ds
                    (eq_sym (app_nil_r _)) Hraw) eq_refl).
  rewrite (proj1 (alternative_walk msg boundary (parts msg boundary) [] ds
                    (eq_sym (app_nil_r _)) Hdec) eq_refl).
  rewrite (mixed_text_leaves clock msg boundary ds Hdec).
  split; reflexivity.
Qed.

(** X23.  [parseMultipartRelated] stops at the first part that is neither
    text/plain, text/html nor multipart/alternative and has no
    [Content-Transfer-Encoding] field: it returns the error that names the
    media type, together with the texts of the leaves before that part;
    the parts after it are not looked at. *)
Theorem parseMultipartRelated_unsupported (msg : Body) (boundary : string)
    (pre rest : list Part) (bad : Part) (contentType : string)
    (ds : list (TextKind * string)) :
  parts msg boundary = pre ++ bad :: rest ->
  Forall2 rawLeaf pre ds ->
  hasMediaType bad contentType ->
  handled handledByRelated contentType = false ->
  isEmbeddedFile bad = false ->
  parseMultipartRelated msg boundary =
  Ret (textOf Plain ds, textOf Html ds, [], Some (ErrRelatedInner contentType)).
Proof.
  intros Hparts Hpre Hmt Hh He.
  eapply (related_walk msg boundary pre (bad :: rest) ds); eauto.
Qed.

(** X24.  [parseMultipartAlternative] stops at the first part that is
    neither text/plain, text/html nor multipart/related and has no
    [Content-Transfer-Encoding] field, a nested multipart/alternative or
    multipart/mixed included: it returns the error that names the media
    type, together with the texts of the leaves before that part. *)
Theorem parseMultipartAlternative_unsupported (msg : Body) (boundary : string)
    (pre rest : list Part) (bad : Part) (contentType : string)
    (ds : list (TextKind * string)) :
  parts msg boundary = pre ++ bad :: rest ->
  Forall2 decodedLeaf pre ds ->
  hasMediaType bad contentType ->
  handled handledByAlternative contentType = false ->
  isEmbeddedFile bad = false ->
  parseMultipartAlternative msg boundary =
  Ret (textOf Plain ds, textOf Html ds, [], Some (ErrAlternativeInner contentType)).
Proof.
  intros Hparts Hpre Hmt Hh He.
  eapply (alternative_walk msg boundary pre (bad :: rest) ds); eauto.
Qed.

(** X25.  [parseMultipartMixed] stops at the first part whose media type
    it has no branch for and that is not an attachment (no file name, and
    not application/octet-stream): it returns the error that names the
    media type, together with the texts of the leaves before that part and
    no attachment. *)
Theorem parseMultipartMixed_unsupported (clock : nat -> Z) (msg : Body)
    (boundary : string) (pre rest : list Part) (bad : Part) (contentType : string)
    (ds : list (TextKind * string)) :
  parts msg boundary = pre ++ bad :: rest ->
  Forall2 decodedLeaf pre ds ->
  hasMediaType bad contentType ->
  handled handledByMixed contentType = false ->
  isAttachment bad contentType = false ->
  parseMultipartMixed clock msg boundary =
  Ret (textOf Plain ds, textOf Html ds, [], [], Some (ErrMixedNested contentType)).
Proof.
  intros Hparts Hpre (sane & params & Hs & Hp) Hh Ha.
  unfold parseMultipartMixed. rewrite Hparts, (mixed_prefix _ _ _ _ ds) by exact Hpre.
  cbn [parseMultipartMixed_loop]. rewrite Hs, bind_Ret, Hp.
  apply handled_4 in Hh as (-> & -> & -> & ->). rewrite Ha. reflexivity.
Qed.

End WalkerFacts.

(** ** [ParseEmail] on whole messages *)

Section TopLevelFacts.

Context `{GoLib}.

Import strings.

(** X26.  The email that [ParseEmail] returns is nil only when
    [mail.ReadMessage] fails, and then the error is that failure; in every
    other case in which it returns, with or without an error, there is an
    email and its [ContentType] is the [Content-Type] field of the
    message. *)
Theorem ParseEmail_email (clock : nat -> Z) (r : string) (result : option Email)
    (err : option error) :
  ParseEmail clock r = Ret (result, err) ->
  match ReadMessage r with
  | inr e => result = None /\ err = Some (Foreign e)
  | inl (header, body) =>
      exists email, result = Some email /\
        ContentType email = Header_Get header "Content-Type"
  end.
Proof.
  unfold ParseEmail. intros Heq.
  destruct (ReadMessage r) as [[header body]|e]; [|injection Heq as <- <-; auto].
  apply bind_inv in Heq as ([email0 err0] & Hc & Heq).
  rewrite (createEmailFromHeader_err_nil _ _ _ Hc) in Heq.
  apply bind_inv in Heq as (parsed & Hp & Heq).
  destruct parsed as [[contentType params]|e];
    [|injection Heq as <- <-; eexists; split; reflexivity].
  destruct (String.eqb contentType contentTypeMultipartMixed).
  { apply bind_inv in Heq as ([[[[tb hb] ats] efs] err1] & _ & Heq).
    injection Heq as <- <-. eexists; split; reflexivity. }
  destruct (String.eqb contentType contentTypeMultipartAlternative).
  { apply bind_inv in Heq as ([[[tb hb] efs] err1] & _ & Heq).
    injection Heq as <- <-. eexists; split; reflexivity. }
  destruct (String.eqb contentType contentTypeMultipartRelated).
  { apply bind_inv in Heq as ([[[tb hb] efs] err1] & _ & Heq).
    injection Heq as <- <-. eexists; split; reflexivity. }
  destruct (String.eqb contentType contentTypeTextPlain).
  { apply bind_inv in Heq as ([newPart st] & _ & Heq).
    destruct newPart as [newPart|e]; [|injection Heq as <- <-; eexists; split; reflexivity].
    destruct (ReadAll newPart st) as [[message e] st'].
    injection Heq as <- <-. eexists; split; reflexivity. }
  destruct (String.eqb contentType contentTypeTextHtml).
  { apply bind_inv in Heq as ([newPart st] & _ & Heq).
    destruct newPart as [newPart|e]; [|injection Heq as <- <-; eexists; split; reflexivity].
    destruct (ReadAll newPart st) as [[message [e|]] st'];
      injection Heq as <- <-; eexists; split; reflexivity. }
  apply bind_inv in Heq as ([content st] & _ & Heq).
  destruct content as [content|e]; injection Heq as <- <-; eexists; split; reflexivity.
Qed.

(** X27.  A read error in the body of a single-part text message, with no
    transfer encoding and no charset: for text/plain the error is dropped,
    [ParseEmail] returns no error and the text body is what was read
    before the failure; for text/html the error is returned and the HTML
    body stays empty. *)
Theorem ParseEmail_text_read_fault (clock : nat -> Z) (r : string)
    (header : MIMEHeader) (body : Body) (email0 : Email) (err0 : option error)
    (k : TextKind) (params : gmap string string) (e : liberror) :
  ReadMessage r = inl (header, body) ->
  createEmailFromHeader header = Ret (email0, err0) ->
  parseContentType (Header_Get header "Content-Type") = Ret (inl (kindName k, params)) ->
  Header_Get header "Content-Transfer-Encoding" = EmptyString ->
  Contains (Header_Get header "Content-Type") "; charset=" = false ->
  fault body = Some e ->
  ParseEmail clock r =
  match k with
  | Plain =>
      Ret (Some (set_TextBody (set_ContentType email0 (Header_Get header "Content-Type"))
                   (TrimSuffix (content body) LF)), None)
  | Html =>
      Ret (Some (set_ContentType email0 (Header_Get header "Content-Type")),
           Some (Foreign e))
  end.
Proof.
  intros Hr Hc Hp He Hcs Hf. unfold ParseEmail. rewrite Hr, Hc, bind_Ret.
  rewrite (createEmailFromHeader_err_nil _ _ _ Hc).
  change (ContentType (set_ContentType email0 (Header_Get header "Content-Type")))
    with (Header_Get header "Content-Type").
  rewrite Hp, bind_Ret, He.
  unfold decodeContent. change (ToLower EmptyString) with EmptyString.
  cbn [String.eqb orb]. rewrite (decodeCharset_no_charset _ _ Hcs), !bind_Ret.
  cbn [ReadAll open pending broken]. rewrite Hf.
  destruct k; reflexivity.
Qed.

(** X28.  End to end: on a multipart/mixed or multipart/alternative
    message whose parts are all text leaves that decode without error,
    [ParseEmail] returns an email whose text body and HTML body are the
    texts of the plain and of the HTML leaves in the order of the parts,
    without attachments, embedded files or content, and the error is what
    ended the parts. *)
Theorem ParseEmail_multipart_text (clock : nat -> Z) (r : string)
    (header : MIMEHeader) (body : Body) (email0 : Email) (err0 : option error)
    (contentType : string) (params : gmap string string)
    (ds : list (TextKind * string)) :
  ReadMessage r = inl (header, body) ->
  createEmailFromHeader header = Ret (email0, err0) ->
  parseContentType (Header_Get header "Content-Type") = Ret (inl (contentType, params)) ->
  In contentType [contentTypeMultipartMixed; contentTypeMultipartAlternative] ->
  Forall2 decodedLeaf (parts body (param params "boundary")) ds ->
  exists email,
    ParseEmail clock r =
      Ret (Some email, Foreign <$> parts_end body (param params "boundary")) /\
    TextBody email = textOf Plain ds /\ HTMLBody email = textOf Html ds /\
    Attachments email = [] /\ EmbeddedFiles email = [] /\ Content email = None.
Proof.
  intros Hr Hc Hp Hct Hds. unfold ParseEmail. rewrite Hr, Hc, bind_Ret.
  rewrite (createEmailFromHeader_err_nil _ _ _ Hc).
  change (ContentType (set_ContentType email0 (Header_Get header "Content-Type")))
    with (Header_Get header "Content-Type").
  rewrite Hp, bind_Ret.
  destruct (createEmailFromHeader_fresh _ _ _ Hc) as (F1 & _ & _ & F4 & _).
  destruct Hct as [<-|[<-|[]]]; cbn [String.eqb Ascii.eqb Bool.eqb contentTypeMultipartMixed
    contentTypeMultipartAlternative].
  - rewrite (mixed_text_leaves clock body (param params "boundary") ds Hds), bind_Ret.
    eexists. split; [reflexivity|]. cbn. auto.
  - rewrite (proj1 (alternative_walk body (param params "boundary")
                      (parts body (param params "boundary")) [] ds
                      (eq_sym (app_nil_r _)) Hds) eq_refl), bind_Ret.
    eexists. split; [reflexivity|]. cbn. auto.
Qed.

End TopLevelFacts.

(** ** The further properties on concrete inputs

    As above, the lemmas below run the parser with the library values of
    [go_values], or of [reading] where a message of their own is read. *)

(** X3, at two ids. *)
Lemma parseMessageIdList_bracketed_witness :
  parseMessageIdList (mkHeaderParser ∅ None) "<a@x> <b@y>"
    = (["a@x"; "b@y"], mkHeaderParser ∅ None).
Proof.
  apply (parseMessageIdList_bracketed (mkHeaderParser ∅ None) ["a@x"; "b@y"]).
  - reflexivity.
  - repeat constructor; discriminate.
Defined.

(** X4, at two spaces and a newline. *)
Lemma parseAddress_blank_witness :
  all_bytes (in_cutset blanks) ("  " +:+ LF) = true /\
  parseAddressList (mkHeaderParser ∅ None) ("  " +:+ LF) = ([], mkHeaderParser ∅ None).
Proof.
  split; [reflexivity|].
  apply (parseAddress_blank (mkHeaderParser ∅ None) ("  " +:+ LF)). reflexivity.
Defined.

(** X5, at a value that repeats [charset] with the value in another case. *)
Lemma sanitizeContentTypeHeader_distinct_witness :
  sanitizeContentTypeHeader "text/plain; charset=utf-8; charset=UTF-8"
    = Ret "text/plain; charset=utf-8" /\
  exists kept,
    sanitizeContentTypeHeader "text/plain; charset=utf-8; charset=UTF-8"
      = Ret (Join kept "; ") /\
    sublist kept (segments "text/plain; charset=utf-8; charset=UTF-8") /\
    NoDup (keys_of kept).
Proof.
  split; [reflexivity|].
  apply (sanitizeContentTypeHeader_distinct "text/plain; charset=utf-8; charset=UTF-8").
  reflexivity.
Defined.

(** X6, at a value with two different parameters. *)
Lemma sanitizeContentTypeHeader_keeps_witness :
  exists kept,
    sanitizeContentTypeHeader "text/plain; charset=utf-8; format=flowed"
      = Ret (Join kept "; ") /\
    forall p, p ∈ segments "text/plain; charset=utf-8; format=flowed" ->
      if hasEq p then paramKey p ∈ keys_of kept else p ∈ kept.
Proof.
  apply (sanitizeContentTypeHeader_keeps "text/plain; charset=utf-8; format=flowed").
  reflexivity.
Defined.

(** X7, at a value with blanks, an empty segment and a quoted repeat. *)
Lemma sanitizeContentTypeHeader_idempotent_witness :
  (sane ← sanitizeContentTypeHeader (" text/plain ;; charset=utf-8; charset=" +:+ DQUOTE +:+ "UTF-8" +:+ DQUOTE);
   sanitizeContentTypeHeader sane) = Ret "text/plain; charset=utf-8".
Proof.
  rewrite (sanitizeContentTypeHeader_idempotent
             (" text/plain ;; charset=utf-8; charset=" +:+ DQUOTE +:+ "UTF-8" +:+ DQUOTE))
    by reflexivity.
  reflexivity.
Defined.

(** X8, at a media type with one parameter. *)
Lemma sanitizeContentTypeHeader_fixed_witness :
  sanitizeContentTypeHeader "text/plain; charset=utf-8" = Ret "text/plain; charset=utf-8".
Proof.
  apply (sanitizeContentTypeHeader_fixed ["text/plain"; "charset=utf-8"]).
  - repeat constructor.
  - vm_compute. apply NoDup_singleton.
Defined.

(** X9, at a repeated [charset]. *)
Lemma sanitizeContentTypeHeader_duplicate_witness :
  sanitizeContentTypeHeader ("text/plain; charset=utf-8" +:+ ";" +:+ " charset=UTF-8")
    = sanitizeContentTypeHeader "text/plain; charset=utf-8".
Proof.
  apply (sanitizeContentTypeHeader_duplicate "text/plain; charset=utf-8" " charset=UTF-8");
    reflexivity.
Defined.

(** X11, at a base64 word, and at a quoted-printable payload between a
    prefix and two closing bytes that are not those of an encoded word. *)
Lemma decodeMimeSentence_koi8_payload_witness :
  decodeMimeSentence "=?koi8-r?B?aGk=?=" = Ret "hi" /\
  decodeMimeSentence "=?KOI8-R*q!hi__" = Ret "hi".
Proof.
  split.
  - exact (proj1 (decodeMimeSentence_koi8_payload "=?koi8-r?B?" "aGk=" "?="
                    eq_refl eq_refl eq_refl) eq_refl "hi" eq_refl).
  - exact (proj2 (decodeMimeSentence_koi8_payload "=?KOI8-R*q!" "hi" "__"
                    eq_refl eq_refl eq_refl) eq_refl "hi" eq_refl).
Defined.

(** X12, at twelve bytes. *)
Lemma decodeMimeSentence_short_marker_witness :
  decodeMimeSentence "=?koi8-r?B?x" = Panic "slice bounds out of range".
Proof.
  apply (proj2 (decodeMimeSentence_short_marker "=?koi8-r?B?x" eq_refl eq_refl)).
  cbn. lia.
Defined.

(** X13, at a [Subject] of an encoded word and a plain one. *)
Lemma decodeHeaderMime_fields_witness :
  match decodeHeaderMime {[ "Subject" := ["=?UTF-8?B?aGk=?= there"] ]} with
  | Ret (parsed, err) =>
      err = None /\
      option_Forall2 (Forall2 (fun v v' => decodeMimeSentence v = Ret v'))
        (Some ["=?UTF-8?B?aGk=?= there"]) (parsed !! "Subject") /\
      parsed !! "Subject" = Some ["hi there"]
  | Panic _ => False
  end.
Proof.
  destruct (decodeHeaderMime {[ "Subject" := ["=?UTF-8?B?aGk=?= there"] ]})
    as [[parsed err]|msg] eqn:Heq; [|vm_compute in Heq; discriminate Heq].
  destruct (decodeHeaderMime_fields _ _ _ Heq) as [He Hf].
  split; [exact He|]. split; [exact (Hf "Subject")|].
  vm_compute in Heq. injection Heq as <- _. reflexivity.
Defined.

(** X14, at a plain [Subject]. *)
Lemma decodeHeaderMime_plain_witness :
  decodeHeaderMime {[ "Subject" := ["hello world"] ]}
    = Ret ({[ "Subject" := ["hello world"] ]}, None).
Proof.
  apply decodeHeaderMime_plain. intros key vs v Hk Hv.
  apply lookup_singleton_Some in Hk as [<- <-].
  apply list_elem_of_singleton in Hv. subst v.
  split; [reflexivity|]. repeat constructor; eexists; reflexivity.
Defined.

(** X15, at a header whose [X-Mailer] field is the bare marker. *)
Lemma createEmailFromHeader_panics_witness :
  (exists msg, createEmailFromHeader marker_header = Panic msg) /\
  exists msg,
    @ParseEmail (reading "crafted" (marker_header, leaf EmptyString))
      (fun _ => 0%Z) "crafted" = Panic msg.
Proof.
  split.
  - apply (createEmailFromHeader_panics marker_header "X-Mailer" "=?koi8-r"
             "slice bounds out of range" ["=?koi8-r"]);
      [reflexivity | left | reflexivity].
  - destruct (@createEmailFromHeader_panics
                (reading "crafted" (marker_header, leaf EmptyString))
                marker_header "X-Mailer" "=?koi8-r"
                "slice bounds out of range" ["=?koi8-r"])
      as (_ & _ & Hp); [reflexivity | left | reflexivity |].
    exact (Hp (fun _ => 0%Z) "crafted" (leaf EmptyString) eq_refl).
Defined.

(** X16, at base64 and at no encoding. *)
Lemma decodeContent_source_witness :
  (reads_source (rd_bytes "hi") = false /\ drained = drained /\
   broken (mkStream "aGk=" None) = None /\
   forall st2, snd (fst (ReadAll (rd_bytes "hi") st2)) = None /\
               snd (ReadAll (rd_bytes "hi") st2) = st2) /\
  (reads_source rd_source = true /\ mkStream "aGk=" None = mkStream "aGk=" None).
Proof.
  split.
  - exact (decodeContent_source "base64" "text/plain" (mkStream "aGk=" None) drained
             (rd_bytes "hi") eq_refl).
  - exact (decodeContent_source "" "text/plain" (mkStream "aGk=" None)
             (mkStream "aGk=" None) rd_source eq_refl).
Defined.


(** X18, at a binary part with base64 and with no transfer encoding. *)
Lemma decodeAttachment_binary_data_witness :
  match decodeAttachment 0 (octet ["base64"]) (open (snd (octet ["base64"]))) with
  | Ret (at_, None, st') => at_Data at_ = Some (rd_bytes EmptyString) /\ st' = drained
  | _ => False
  end /\
  match decodeAttachment 0 (octet []) (open (snd (octet []))) with
  | Ret (at_, None, st') => at_Data at_ = Some (rd_bytes "aGk=") /\ st' = drained
  | _ => False
  end.
Proof.
  split.
  - destruct (decodeAttachment 0 (octet ["base64"]) (open (snd (octet ["base64"]))))
      as [[[at_ [e|]] st']|msg] eqn:Heq; try (vm_compute in Heq; discriminate Heq).
    apply (decodeAttachment_binary_data _ _ _ _ _ Heq).
    vm_compute in Heq. injection Heq as <- _. reflexivity.
  - destruct (decodeAttachment 0 (octet []) (open (snd (octet []))))
      as [[[at_ [e|]] st']|msg] eqn:Heq; try (vm_compute in Heq; discriminate Heq).
    apply (decodeAttachment_binary_data _ _ _ _ _ Heq).
    vm_compute in Heq. injection Heq as <- _. reflexivity.
Defined.

(** X19, at an inline part with a content id in angle brackets. *)
Lemma decodeEmbeddedFile_result_witness :
  match decodeEmbeddedFile inline_logo (open (snd inline_logo)) with
  | Ret (ef, None, _) =>
      CID ef = "logo" /\
      edges_free (in_cutset "<>") (CID ef) = true /\
      ef_ContentType ef = "application/pdf; name=logo" /\
      ef_Data ef <> None
  | _ => False
  end.
Proof.
  destruct (decodeEmbeddedFile inline_logo (open (snd inline_logo)))
    as [[[ef [e|]] st']|msg] eqn:Heq; try (vm_compute in Heq; discriminate Heq).
  split; [|exact (decodeEmbeddedFile_result _ _ _ _ _ Heq)].
  vm_compute in Heq. injection Heq as <- _. reflexivity.
Defined.

(** X20, at a plain, an HTML and another plain leaf. *)
Lemma parseMultipartRelated_text_leaves_witness :
  parseMultipartRelated (multipart "b" [plain "A"; html "<p>A</p>"; plain "B"]) "b"
    = Ret ("AB", "<p>A</p>", [], None).
Proof.
  apply (parseMultipartRelated_text_leaves
           (multipart "b" [plain "A"; html "<p>A</p>"; plain "B"]) "b"
           [(Plain, "A"); (Html, "<p>A</p>"); (Plain, "B")]).
  repeat constructor; eexists _, _; split; reflexivity.
Defined.

(** X21, at a base64 plain leaf and an HTML leaf. *)
Lemma decoded_text_leaves_witness :
  parseMultipartAlternative (multipart "b" [base64_text; html "<p>A</p>"]) "b"
    = Ret ("hi", "<p>A</p>", [], None) /\
  parseMultipartMixed (fun _ => 0%Z) (multipart "b" [base64_text; html "<p>A</p>"]) "b"
    = Ret ("hi", "<p>A</p>", [], [], None).
Proof.
  apply (decoded_text_leaves (fun _ => 0%Z)
           (multipart "b" [base64_text; html "<p>A</p>"]) "b"
           [(Plain, "hi"); (Html, "<p>A</p>")]).
  repeat constructor; eexists _, _; split; reflexivity.
Defined.

(** X22, at a plain and an HTML leaf. *)
Lemma walkers_agree_on_undecorated_text_witness :
  parseMultipartAlternative (multipart "b" [plain "A"; html "<p>A</p>"]) "b"
    = parseMultipartRelated (multipart "b" [plain "A"; html "<p>A</p>"]) "b" /\
  parseMultipartMixed (fun _ => 0%Z) (multipart "b" [plain "A"; html "<p>A</p>"]) "b"
    = Ret ("A", "<p>A</p>", [], [], None).
Proof.
  destruct (walkers_agree_on_undecorated_text (fun _ => 0%Z)
              (multipart "b" [plain "A"; html "<p>A</p>"]) "b"
              [(Plain, "A"); (Html, "<p>A</p>")]) as [Ha Hm].
  - repeat constructor; eexists _, _; split; reflexivity.
  - repeat constructor.
  - split; [exact Ha | rewrite Hm; reflexivity].
Defined.

(** X23, at a PDF part between two plain leaves. *)
Lemma parseMultipartRelated_unsupported_witness :
  parseMultipartRelated (multipart "b" [plain "A"; pdf_part; plain "C"]) "b"
    = Ret ("A", EmptyString, [], Some (ErrRelatedInner "application/pdf")).
Proof.
  apply (parseMultipartRelated_unsupported
           (multipart "b" [plain "A"; pdf_part; plain "C"]) "b"
           [plain "A"] [plain "C"] pdf_part "application/pdf" [(Plain, "A")]).
  - reflexivity.
  - repeat constructor; eexists _, _; split; reflexivity.
  - eexists _, _; split; reflexivity.
  - reflexivity.
  - reflexivity.
Defined.

(** X24, at an alternative nested in an alternative. *)
Lemma parseMultipartAlternative_unsupported_witness :
  parseMultipartAlternative (multipart "b" [plain "A"; nested_alternative; plain "C"]) "b"
    = Ret ("A", EmptyString, [], Some (ErrAlternativeInner "multipart/alternative")).
Proof.
  apply (parseMultipartAlternative_unsupported
           (multipart "b" [plain "A"; nested_alternative; plain "C"]) "b"
           [plain "A"] [plain "C"] nested_alternative "multipart/alternative"
           [(Plain, "A")]).
  - reflexivity.
  - repeat constructor; eexists _, _; split; reflexivity.
  - eexists _, _; split; reflexivity.
  - reflexivity.
  - reflexivity.
Defined.

(** X25, at a PDF part without a file name. *)
Lemma parseMultipartMixed_unsupported_witness :
  parseMultipartMixed (fun _ => 0%Z) (multipart "b" [plain "A"; pdf_part; plain "C"]) "b"
    = Ret ("A", EmptyString, [], [], Some (ErrMixedNested "application/pdf")).
Proof.
  apply (parseMultipartMixed_unsupported (fun _ => 0%Z)
           (multipart "b" [plain "A"; pdf_part; plain "C"]) "b"
           [plain "A"] [plain "C"] pdf_part "application/pdf" [(Plain, "A")]).
  - reflexivity.
  - repeat constructor; eexists _, _; split; reflexivity.
  - eexists _, _; split; reflexivity.
  - reflexivity.
  - reflexivity.
Defined.

(** X26, at a message that is read and at one that is not. *)
Lemma ParseEmail_email_witness :
  match ParseEmail (fun _ => 0%Z) pdf_message with
  | Ret (Some email, _) => ContentType email = "application/pdf"
  | _ => False
  end /\
  ParseEmail (fun _ => 0%Z) "no header" =
    Ret (None, Some (Foreign (LibErr "malformed MIME header line"))).
Proof.
  split.
  - destruct (ParseEmail (fun _ => 0%Z) pdf_message) as [[result err]|msg] eqn:Heq;
      [|vm_compute in Heq; discriminate Heq].
    pose proof (ParseEmail_email _ _ _ _ Heq) as Hr.
    change (ReadMessage pdf_message)
      with (inl ({[ "Content-Type" := ["application/pdf"] ]},
                 mkBody "%PDF-1.4" None (fun _ => []) (fun _ => None))
            : MIMEHeader * Body + liberror) in Hr.
    destruct Hr as (email & -> & Hct). exact Hct.
  - destruct (ParseEmail (fun _ => 0%Z) "no header") as [[result err]|msg] eqn:Heq;
      [|vm_compute in Heq; discriminate Heq].
    destruct (ParseEmail_email _ _ _ _ Heq) as [-> ->]. reflexivity.
Defined.

(** X27, at a body that fails after ["partial"], as text/plain and as
    text/html. *)
Lemma ParseEmail_text_read_fault_witness :
  (exists email,
     @ParseEmail (reading "cut" (truncated "text/plain")) (fun _ => 0%Z) "cut"
       = Ret (Some email, None) /\
     TextBody email = "partial") /\
  (exists email,
     @ParseEmail (reading "cut" (truncated "text/html")) (fun _ => 0%Z) "cut"
       = Ret (Some email, Some (Foreign (LibErr "unexpected EOF"))) /\
     HTMLBody email = EmptyString).
Proof.
  split.
  - destruct (@createEmailFromHeader (reading "cut" (truncated "text/plain"))
                (fst (truncated "text/plain"))) as [[email0 err0]|msg] eqn:Hc;
      [|vm_compute in Hc; discriminate Hc].
    eexists. split.
    + exact (@ParseEmail_text_read_fault (reading "cut" (truncated "text/plain"))
               (fun _ => 0%Z) "cut" _ _ email0 err0 Plain ∅ (LibErr "unexpected EOF")
               eq_refl Hc eq_refl eq_refl eq_refl eq_refl).
    + reflexivity.
  - destruct (@createEmailFromHeader (reading "cut" (truncated "text/html"))
                (fst (truncated "text/html"))) as [[email0 err0]|msg] eqn:Hc;
      [|vm_compute in Hc; discriminate Hc].
    eexists. split.
    + exact (@ParseEmail_text_read_fault (reading "cut" (truncated "text/html"))
               (fun _ => 0%Z) "cut" _ _ email0 err0 Html ∅ (LibErr "unexpected EOF")
               eq_refl Hc eq_refl eq_refl eq_refl eq_refl).
    + cbn. vm_compute in Hc. injection Hc as <- _. reflexivity.
Defined.

(** X28, at an alternative message with a plain and an HTML leaf. *)
Lemma ParseEmail_multipart_text_witness :
  exists email,
    @ParseEmail (reading "alt" alternative_message) (fun _ => 0%Z) "alt"
      = Ret (Some email, None) /\
    TextBody email = "A" /\ HTMLBody email = "<p>A</p>" /\
    Attachments email = [] /\ EmbeddedFiles email = [] /\ Content email = None.
Proof.
  destruct (@createEmailFromHeader (reading "alt" alternative_message)
              (fst alternative_message)) as [[email0 err0]|msg] eqn:Hc;
    [|vm_compute in Hc; discriminate Hc].
  destruct (@ParseEmail_multipart_text (reading "alt" alternative_message)
              (fun _ => 0%Z) "alt" (fst alternative_message) (snd alternative_message)
              email0 err0 "multipart/alternative" {[ "boundary" := "inner" ]}
              [(Plain, "A"); (Html, "<p>A</p>")])
    as (email & Hp & Ht & Hh & Hrest).
  - reflexivity.
  - exact Hc.
  - reflexivity.
  - right. left. reflexivity.
  - repeat constructor; eexists _, _; split; reflexivity.
  - exists email. split; [exact Hp|]. split; [exact Ht|]. split; [exact Hh | exact Hrest].
Defined.
